(** * boardgamegeek.objects.games: construction, validation and deduplication

    A shallow embedding of [boardgamegeek/objects/games.py].  The classes of
    that module wrap nested dictionaries decoded from the web service; the
    constructors validate a few required fields, normalise some others and
    remove duplicates by identifier.

    Python values are modelled by the type [value] (None, integers, strings,
    datetimes, lists and string-keyed dictionaries; floats and booleans are not
    modelled).  A dictionary is an association list in insertion order.
    Exceptions are modelled by the type [exn] and a computation that can raise
    by [result A := exn + A]. *)

From Stdlib Require Import ZArith List String Ascii Bool Lia.
Import ListNotations.

Local Open Scope string_scope.
Local Open Scope Z_scope.
Local Open Scope list_scope.

(** ** Python values and exceptions *)

(** [datetime.datetime], without time zone and with microsecond 0. *)
Record datetime : Type := mk_datetime {
  dt_year : Z; dt_month : Z; dt_day : Z;
  dt_hour : Z; dt_minute : Z; dt_second : Z
}.

#[warnings="-register-all"]
Inductive value : Type :=
| VNone
| VInt (z : Z)
| VStr (s : string)
| VDatetime (dt : datetime)
| VList (l : list value)
| VDict (d : list (string * value)).

Definition dict : Type := list (string * value).

(** The exceptions that the module can meet.  [BGGError] is the library's own
    validation error ([boardgamegeek.exceptions.BGGError]); it carries its
    message. *)
Inductive exn : Type :=
| KeyError
| TypeError
| ValueError
| AttributeError
| BGGError (msg : string).

Definition result (A : Type) : Type := (exn + A)%type.

Definition ok {A} (a : A) : result A := inr a.
Definition raise {A} (e : exn) : result A := inl e.

Definition bind {A B} (r : result A) (k : A -> result B) : result B :=
  match r with
  | inl e => inl e
  | inr a => k a
  end.

Notation "x <- r ;; k" := (bind r (fun x => k))
  (at level 61, r at next level, right associativity).

Definition is_BGGError (e : exn) : bool :=
  match e with BGGError _ => true | _ => false end.

Definition succeeds {A} (r : result A) : bool :=
  match r with inr _ => true | inl _ => false end.

(** [try: body / except KeyError: raise BGGError(msg)] *)
Definition except_KeyError {A} (msg : string) (body : result A) : result A :=
  match body with
  | inl KeyError => inl (BGGError msg)
  | r => r
  end.

(** ** Dictionaries *)

Fixpoint dict_lookup (k : string) (d : dict) : option value :=
  match d with
  | [] => None
  | (k', v) :: r => if String.eqb k k' then Some v else dict_lookup k r
  end.

(** [d[k] = v]: an existing key keeps its place, a new one goes last. *)
Fixpoint dict_set (k : string) (v : value) (d : dict) : dict :=
  match d with
  | [] => [(k, v)]
  | (k', v') :: r =>
      if String.eqb k k' then (k', v) :: r else (k', v') :: dict_set k v r
  end.

(** [k in d] for a dictionary [d]. *)
Definition dict_has (k : string) (d : dict) : bool :=
  match dict_lookup k d with Some _ => true | None => false end.

(** [d.get(k, default)] for a dictionary [d]. *)
Definition dict_get (k : string) (default : value) (d : dict) : value :=
  match dict_lookup k d with Some v => v | None => default end.

(** [v[k]] with a string key [k]: only a dictionary can be subscripted by a
    string; a missing key is a [KeyError]. *)
Definition py_getitem (v : value) (k : string) : result value :=
  match v with
  | VDict d =>
      match dict_lookup k d with
      | Some x => ok x
      | None => raise KeyError
      end
  | _ => raise TypeError
  end.

(** [v.get(k, default)]: a method of dictionaries only. *)
Definition py_get (v : value) (k : string) (default : value) : result value :=
  match v with
  | VDict d => ok (dict_get k default d)
  | _ => raise AttributeError
  end.

(** [v.items()] *)
Definition py_items (v : value) : result (list (string * value)) :=
  match v with
  | VDict d => ok d
  | _ => raise AttributeError
  end.

(** [v.append(x)]: a method of lists only. *)
Definition py_append (v : value) (x : value) : result value :=
  match v with
  | VList l => ok (VList (l ++ [x]))
  | _ => raise AttributeError
  end.

Fixpoint chars (s : string) : list ascii :=
  match s with
  | EmptyString => []
  | String c r => c :: chars r
  end.

Fixpoint of_chars (l : list ascii) : string :=
  match l with
  | [] => EmptyString
  | c :: r => String c (of_chars r)
  end.

(** [for x in v]: the elements of a list, the keys of a dictionary, the
    characters of a string. *)
Definition py_iter (v : value) : result (list value) :=
  match v with
  | VList l => ok l
  | VDict d => ok (map (fun kv => VStr (fst kv)) d)
  | VStr s => ok (map (fun c => VStr (String c EmptyString)) (chars s))
  | _ => raise TypeError
  end.

(** ** Hashable values, as members of a [set] *)

Inductive key : Type :=
| KNone
| KInt (z : Z)
| KStr (s : string)
| KDatetime (dt : datetime).

Definition datetime_eqb (a b : datetime) : bool :=
  (dt_year a =? dt_year b) && (dt_month a =? dt_month b)
  && (dt_day a =? dt_day b) && (dt_hour a =? dt_hour b)
  && (dt_minute a =? dt_minute b) && (dt_second a =? dt_second b).

Definition key_eqb (a b : key) : bool :=
  match a, b with
  | KNone, KNone => true
  | KInt x, KInt y => x =? y
  | KStr x, KStr y => String.eqb x y
  | KDatetime x, KDatetime y => datetime_eqb x y
  | _, _ => false
  end.

(** Lists and dictionaries are unhashable: looking one up in a set is a
    [TypeError]. *)
Definition py_hash (v : value) : result key :=
  match v with
  | VNone => ok KNone
  | VInt z => ok (KInt z)
  | VStr s => ok (KStr s)
  | VDatetime dt => ok (KDatetime dt)
  | VList _ | VDict _ => raise TypeError
  end.

(** A [set] is only tested for membership and grown. *)
Definition pyset : Type := list key.

Definition set_mem (k : key) (s : pyset) : bool := existsb (key_eqb k) s.
Definition set_add (k : key) (s : pyset) : pyset :=
  if set_mem k s then s else s ++ [k].

(** ** [int(x)] *)

Definition is_digit (c : ascii) : bool :=
  let n := nat_of_ascii c in (48 <=? n)%nat && (n <=? 57)%nat.

Definition digit_val (c : ascii) : Z := Z.of_nat (nat_of_ascii c) - 48.

(** The white space that [int] strips from an ASCII string: space and tab
    to carriage return (9 to 13). *)
Definition is_space (c : ascii) : bool :=
  let n := nat_of_ascii c in
  (n =? 32)%nat || ((9 <=? n)%nat && (n <=? 13)%nat).

Fixpoint lstrip (l : list ascii) : list ascii :=
  match l with
  | c :: r => if is_space c then lstrip r else l
  | [] => []
  end.

Definition strip (l : list ascii) : list ascii :=
  rev (lstrip (rev (lstrip l))).

(** Decimal digits with single underscores between digits ([1_000]); [acc] is
    the number read so far and [prev_digit] says whether the previous
    character was a digit. *)
Fixpoint digits_value (acc : Z) (prev_digit : bool) (l : list ascii)
  : option Z :=
  match l with
  | [] => if prev_digit then Some acc else None
  | c :: r =>
      if is_digit c then digits_value (10 * acc + digit_val c) true r
      else if (nat_of_ascii c =? 95)%nat && prev_digit
           then match r with
                | d :: _ => if is_digit d then digits_value acc false r
                            else None
                | [] => None
                end
           else None
  end.

Definition int_of_chars (l : list ascii) : option Z :=
  match strip l with
  | c :: r =>
      if (nat_of_ascii c =? 45)%nat
      then option_map Z.opp (digits_value 0 false r)
      else if (nat_of_ascii c =? 43)%nat then digits_value 0 false r
      else digits_value 0 false (c :: r)
  | [] => None
  end.

(** [int(v)]: an integer is returned as it is, a string is parsed in base 10
    ([ValueError] when it is not a number), anything else is a [TypeError]. *)
Definition py_int (v : value) : result Z :=
  match v with
  | VInt z => ok z
  | VStr s =>
      match int_of_chars (chars s) with
      | Some z => ok z
      | None => raise ValueError
      end
  | _ => raise TypeError
  end.

(** ** [datetime.datetime.strptime(s, "%Y-%m-%dT%H:%M:%S")]

    The standard library turns the format into a regular expression, one
    group of ordered alternatives per directive, matched from the start of
    the string without regard to letter case; the text matched must be the
    whole string, and the fields must make a valid date and time.  Strings are
    ASCII here. *)

Definition char_is (a : ascii) : ascii -> bool := Ascii.eqb a.

Definition char_in (lo hi : ascii) (c : ascii) : bool :=
  ((nat_of_ascii lo <=? nat_of_ascii c)
   && (nat_of_ascii c <=? nat_of_ascii hi))%nat.

Definition lower (c : ascii) : ascii :=
  if char_in "A" "Z" c then ascii_of_nat (nat_of_ascii c + 32) else c.

Inductive item : Type :=
| Lit (c : ascii)
| Group (alts : list (list (ascii -> bool))).

Definition re_Y : item := Group [[is_digit; is_digit; is_digit; is_digit]].
Definition re_m : item :=
  Group [[char_is "1"; char_in "0" "2"]; [char_is "0"; char_in "1" "9"];
         [char_in "1" "9"]].
Definition re_d : item :=
  Group [[char_is "3"; char_in "0" "1"]; [char_in "1" "2"; is_digit];
         [char_is "0"; char_in "1" "9"]; [char_in "1" "9"];
         [char_is " "; char_in "1" "9"]].
Definition re_H : item :=
  Group [[char_is "2"; char_in "0" "3"]; [char_in "0" "1"; is_digit];
         [is_digit]].
Definition re_M : item := Group [[char_in "0" "5"; is_digit]; [is_digit]].
Definition re_S : item :=
  Group [[char_is "6"; char_in "0" "1"]; [char_in "0" "5"; is_digit];
         [is_digit]].

Definition post_date_format : list item :=
  [re_Y; Lit "-"; re_m; Lit "-"; re_d; Lit "T"; re_H; Lit ":"; re_M; Lit ":";
   re_S].

(** One alternative: a fixed sequence of character classes. *)
Fixpoint match_classes (cs : list (ascii -> bool)) (s : list ascii)
  : option (list ascii * list ascii) :=
  match cs with
  | [] => Some ([], s)
  | p :: cs' =>
      match s with
      | c :: s' =>
          if p c
          then match match_classes cs' s' with
               | Some (m, rest) => Some (c :: m, rest)
               | None => None
               end
          else None
      | [] => None
      end
  end.

(** The first match in the order of a backtracking matcher: the text of every
    group and what is left of the string. *)
Fixpoint match_items (its : list item) (s : list ascii)
  : option (list (list ascii) * list ascii) :=
  match its with
  | [] => Some ([], s)
  | Lit c :: r =>
      match s with
      | x :: s' =>
          if Ascii.eqb (lower c) (lower x) then match_items r s' else None
      | [] => None
      end
  | Group alts :: r =>
      (fix try_alts (alts : list (list (ascii -> bool))) :=
         match alts with
         | [] => None
         | a :: alts' =>
             match match_classes a s with
             | Some (m, s') =>
                 match match_items r s' with
                 | Some (caps, rest) => Some (m :: caps, rest)
                 | None => try_alts alts'
                 end
             | None => try_alts alts'
             end
         end) alts
  end.

(** The number written by the digits of a field (the day may start with a
    space). *)
Definition field_value (l : list ascii) : Z :=
  fold_left (fun acc c => if is_digit c then 10 * acc + digit_val c else acc)
            l 0.

Definition is_leap (y : Z) : bool :=
  (y mod 4 =? 0) && (negb (y mod 100 =? 0) || (y mod 400 =? 0)).

Definition days_in_month (y m : Z) : Z :=
  if m =? 2 then (if is_leap y then 29 else 28)
  else if (m =? 4) || (m =? 6) || (m =? 9) || (m =? 11) then 30
  else 31.

Definition strptime_chars (s : list ascii) : option datetime :=
  match match_items post_date_format s with
  | Some ([fY; fm; fd; fH; fM; fS], []) =>
      let year := field_value fY in
      let month := field_value fm in
      let day := field_value fd in
      let second := field_value fS in
      if (1 <=? year) && (day <=? days_in_month year month) && (second <=? 59)
      then Some (mk_datetime year month day (field_value fH) (field_value fM)
                             second)
      else None
  | _ => None
  end.

Definition strptime (v : value) : result datetime :=
  match v with
  | VStr s =>
      match strptime_chars (chars s) with
      | Some dt => ok dt
      | None => raise ValueError
      end
  | _ => raise TypeError
  end.

(** [v[:-6]]: strings and lists can be sliced. *)
Definition slice_to_minus_6 (v : value) : result value :=
  match v with
  | VStr s =>
      let l := chars s in
      ok (VStr (of_chars (firstn (List.length l - 6)%nat l)))
  | VList l => ok (VList (firstn (List.length l - 6)%nat l))
  | _ => raise TypeError
  end.

(** ** The base classes

    [DictObject] (boardgamegeek/utils.py) and [Thing]
    (boardgamegeek/objects/things.py) are imported by the module. *)

(** Modelled from the spec: [DictObject.__getattr__], the generic record
    wrapper's dynamic attribute lookup, which is defined in utils.py: a key of
    the wrapped mapping is read as an attribute, and a missing key is
    "attribute not found". *)
Definition DictObject_getattr (data : dict) (item : string) : result value :=
  match dict_lookup item data with
  | Some v => ok v
  | None => raise AttributeError
  end.

Record Thing : Type := mk_Thing {
  Thing_id : Z;
  Thing_name : value;
  Thing_data : dict
}.

(** Modelled from the spec: [Thing.__init__], the identified-thing wrapper,
    which is defined in things.py: the mapping must contain an [id] coercible
    to an integer, or construction fails with the validation error; [name] is
    read when present and is null otherwise.  The text of the two messages is
    not fixed by the spec. *)
Definition Thing_init (data : dict) : result Thing :=
  match dict_lookup "id" data with
  | None => raise (BGGError "missing id")
  | Some v =>
      match py_int v with
      | inr z => ok (mk_Thing z (dict_get "name" VNone data) data)
      | inl _ => raise (BGGError "id is not an int")
      end
  end.

(** ** [BoardGameRank] and [BoardGameStats] *)

(** [BoardGameRank] adds read accessors to [Thing] and no constructor. *)
Definition BoardGameRank : Type := Thing.
Definition BoardGameRank_init : dict -> result BoardGameRank := Thing_init.

Definition rank_type (r : BoardGameRank) : value :=
  dict_get "type" VNone (Thing_data r).
Definition rank_value (r : BoardGameRank) : value :=
  dict_get "value" VNone (Thing_data r).

(** [_bgg_rank] is [None] as long as the attribute has not been assigned,
    [Some VNone] once it holds Python's [None]. *)
Record BoardGameStats : Type := mk_BoardGameStats {
  _bgg_rank : option value;
  _ranks : list BoardGameRank;
  stats_data : dict
}.

(** [v == "boardgame"] *)
Definition eq_boardgame (v : value) : bool :=
  match v with
  | VStr s => String.eqb s "boardgame"
  | _ => false
  end.

(** [try: int(rank["value"]) / except (KeyError, TypeError): None] *)
Definition rank_value_int (rank : value) : result value :=
  match (v <- py_getitem rank "value";; py_int v) with
  | inr z => ok (VInt z)
  | inl KeyError => ok VNone
  | inl TypeError => ok VNone
  | inl e => raise e
  end.

(** [rank.get("name") == "boardgame"] *)
Definition named_boardgame (r : dict) : bool :=
  eq_boardgame (dict_get "name" VNone r).

(** The body of the loop of [BoardGameStats.__init__]. *)
Definition ranks_step (st : option value * list BoardGameRank) (rank : value)
  : result (option value * list BoardGameRank) :=
  match rank with
  | VDict r =>
      rk <- (if eq_boardgame (dict_get "name" VNone r)
             then v <- rank_value_int rank;; ok (Some v)
             else ok (fst st));;
      t <- BoardGameRank_init r;;
      ok (rk, snd st ++ [t])
  | _ => raise AttributeError
  end.

Fixpoint ranks_loop (l : list value) (st : option value * list BoardGameRank)
  : result (option value * list BoardGameRank) :=
  match l with
  | [] => ok st
  | rank :: rest => st' <- ranks_step st rank;; ranks_loop rest st'
  end.

Definition BoardGameStats_init (data : value) : result BoardGameStats :=
  match data with
  | VDict d =>
      l <- py_iter (dict_get "ranks" (VList []) d);;
      st <- ranks_loop l (None, []);;
      ok (mk_BoardGameStats (fst st) (snd st) d)
  | _ => raise AttributeError
  end.

(** The property [bgg_rank] returns [self._bgg_rank].  When that attribute was
    never assigned, the lookup goes to [__getattr__] of [DictObject], first
    for [_bgg_rank] inside the getter and, as the getter then fails with an
    AttributeError, for [bgg_rank] itself. *)
Definition bgg_rank (s : BoardGameStats) : result value :=
  match _bgg_rank s with
  | Some v => ok v
  | None =>
      match DictObject_getattr (stats_data s) "_bgg_rank" with
      | inr v => ok v
      | inl _ => DictObject_getattr (stats_data s) "bgg_rank"
      end
  end.

Definition ranks (s : BoardGameStats) : list BoardGameRank := _ranks s.

(** ** [BoardGameVideo] *)

Definition BoardGameVideo : Type := Thing.

(** [try: strptime(date[:-6], ...) / except: None] *)
Definition parse_post_date (date : value) : value :=
  match (s <- slice_to_minus_6 date;; strptime s) with
  | inr dt => VDatetime dt
  | inl _ => VNone
  end.

(** The first part of [BoardGameVideo.__init__]: the copy [kw] of the data
    with [post_date] parsed. *)
Definition video_kw (data : dict) : dict :=
  match dict_lookup "post_date" data with
  | Some (VDatetime _) => data
  | Some date => dict_set "post_date" (parse_post_date date) data
  | None => data
  end.

Definition BoardGameVideo_init (data : dict) : result BoardGameVideo :=
  let kw := video_kw data in
  uid <- py_getitem (VDict kw) "uploader_id";;
  z <- py_int uid;;
  Thing_init (dict_set "uploader_id" (VInt z) kw).

Definition uploader_id (v : BoardGameVideo) : value :=
  dict_get "uploader_id" VNone (Thing_data v).
Definition post_date (v : BoardGameVideo) : value :=
  dict_get "post_date" VNone (Thing_data v).

(** ** Lists without duplicate identifiers

    The four loops of [BaseGame.__init__] and [BoardGame.__init__] over
    versions, expansions, expanded games and videos have the same body, up to
    the constructor, the message and the order of the two updates (which
    cannot be observed, as a constructor that fails loses the object):

      try:
          if x["id"] not in seen:
              seen.add(x["id"]); out.append(ctor(x))
      except KeyError:
          raise BGGError(msg) *)
Section Unique.
Variable W : Type.
Variable ctor : dict -> result W.
Variable msg : string.

Definition unique_step (st : list W * pyset) (x : value)
  : result (list W * pyset) :=
  except_KeyError msg
    (match x with
     | VDict d =>
         i <- py_getitem x "id";;
         k <- py_hash i;;
         if set_mem k (snd st) then ok st
         else w <- ctor d;; ok (fst st ++ [w], set_add k (snd st))
     | _ => raise TypeError
     end).

Fixpoint unique_loop (l : list value) (st : list W * pyset)
  : result (list W * pyset) :=
  match l with
  | [] => ok st
  | x :: rest => st' <- unique_step st x;; unique_loop rest st'
  end.
End Unique.

Arguments unique_step {W} ctor msg st x.
Arguments unique_loop {W} ctor msg l st.

Fixpoint map_result {A B} (f : A -> result B) (l : list A) : result (list B) :=
  match l with
  | [] => ok []
  | x :: rest => y <- f x;; ys <- map_result f rest;; ok (y :: ys)
  end.

(** ** Games

    [fix_url] and [fix_unsigned_negative] come from boardgamegeek/utils.py;
    the constructors are defined for any two such functions. *)
Record BaseGame : Type := mk_BaseGame {
  _thumbnail : value;
  _image : value;
  _stats : BoardGameStats;
  _versions : list Thing;
  _versions_set : pyset;
  _year_published : value;
  game_id : Z;
  game_name : value;
  game_data : dict
}.

Record BoardGame : Type := mk_BoardGame {
  _expansions : list Thing;
  _expansions_set : pyset;
  _expands : list Thing;
  _expands_set : pyset;
  _videos : list BoardGameVideo;
  _videos_ids : pyset;
  _comments : list value;
  _poll_results_numplayers : list dict;
  _poll_results_playerage : list dict;
  _poll_results_langdeps : list dict;
  base : BaseGame
}.

Section Games.
Variable fix_url : value -> result value.
Variable fix_unsigned_negative : value -> result value.

Definition BoardGameVersion : Type := Thing.

(** [if to_fix in kw: kw[to_fix] = fix_url(kw[to_fix])] *)
Definition fix_key (to_fix : string) (kw : dict) : result dict :=
  match dict_lookup to_fix kw with
  | Some u => u' <- fix_url u;; ok (dict_set to_fix u' kw)
  | None => ok kw
  end.

Definition BoardGameVersion_init (data : dict) : result BoardGameVersion :=
  kw <- fix_key "thumbnail" data;;
  kw <- fix_key "image" kw;;
  Thing_init kw.

(** [fix_url(data[k]) if k in data else None] *)
Definition fixed_url_of (k : string) (data : dict) : result value :=
  match dict_lookup k data with
  | Some u => fix_url u
  | None => ok VNone
  end.

(** [try: fix_unsigned_negative(data["yearpublished"])
     except KeyError: None] *)
Definition year_published_of (data : dict) : result value :=
  match (y <- py_getitem (VDict data) "yearpublished";;
         fix_unsigned_negative y) with
  | inl KeyError => ok VNone
  | r => r
  end.

Definition BaseGame_init (data : dict) : result BaseGame :=
  thumbnail <- fixed_url_of "thumbnail" data;;
  image <- fixed_url_of "image" data;;
  match dict_lookup "stats" data with
  | None => raise (BGGError "invalid data")
  | Some st =>
      stats <- BoardGameStats_init st;;
      year <- year_published_of data;;
      versions <- py_iter (dict_get "versions" (VList []) data);;
      vs <- unique_loop BoardGameVersion_init "invalid version data"
                        versions ([], []);;
      t <- Thing_init data;;
      ok (mk_BaseGame thumbnail image stats (fst vs) (snd vs) year
                      (Thing_id t) (Thing_name t) (Thing_data t))
  end.

(** [CollectionBoardGame.__init__] only calls the constructor of
    [BaseGame]. *)
Definition CollectionBoardGame_init : dict -> result BaseGame :=
  BaseGame_init.

(** The poll results: one [DictObject] per entry of the [results] mapping. *)
Definition numplayers_entry (e : string * value) : result dict :=
  best <- py_getitem (snd e) "best";;
  recommended <- py_getitem (snd e) "recommended";;
  not_recommended <- py_getitem (snd e) "not_recommended";;
  ok [("_count", VStr (fst e)); ("_best", best);
      ("_recommended", recommended); ("_not_recommended", not_recommended)].

Definition playerage_entry (e : string * value) : result dict :=
  ok [("_age", VStr (fst e)); ("_votes", snd e)].

Definition langdeps_entry (e : string * value) : result dict :=
  description <- py_getitem (snd e) "description";;
  votes <- py_getitem (snd e) "num_votes";;
  ok [("_level", VStr (fst e)); ("_description", description);
      ("_votes", votes)].

Definition poll_results (k : string)
    (entry : string * value -> result dict) (data : dict)
  : result (list dict) :=
  match dict_lookup k data with
  | Some poll =>
      results <- py_getitem poll "results";;
      items <- py_items results;;
      map_result entry items
  | None => ok []
  end.

(** The three loops of [BoardGame.__init__] over lists of records. *)
Definition load_expansions (data : dict) : result (list Thing * pyset) :=
  l <- py_iter (dict_get "expansions" (VList []) data);;
  unique_loop Thing_init "invalid expansion data" l ([], []).

Definition load_expands (data : dict) : result (list Thing * pyset) :=
  l <- py_iter (dict_get "expands" (VList []) data);;
  unique_loop Thing_init "invalid expanded game data" l ([], []).

Definition load_videos (data : dict)
  : result (list BoardGameVideo * pyset) :=
  l <- py_iter (dict_get "videos" (VList []) data);;
  unique_loop BoardGameVideo_init "invalid video data" l ([], []).

(** What [BoardGame.__init__] does before it calls the constructor of
    [BaseGame]: all the attributes of its own. *)
Definition BoardGame_fields (data : dict) : result (BaseGame -> BoardGame) :=
  exps <- load_expansions data;;
  expands <- load_expands data;;
  videos <- load_videos data;;
  comments <- py_iter (dict_get "comments" (VList []) data);;
  numplayers <- poll_results "suggested_numplayers" numplayers_entry data;;
  playerage <- poll_results "suggested_playerage" playerage_entry data;;
  langdeps <- poll_results "language_dependence" langdeps_entry data;;
  ok (mk_BoardGame (fst exps) (snd exps) (fst expands) (snd expands)
                   (fst videos) (snd videos) comments numplayers playerage
                   langdeps).

Definition BoardGame_init (data : dict) : result BoardGame :=
  fields <- BoardGame_fields data;;
  b <- BaseGame_init data;;
  ok (fields b).

Definition expansions (g : BoardGame) : list Thing := _expansions g.
Definition expands (g : BoardGame) : list Thing := _expands g.
Definition videos (g : BoardGame) : list BoardGameVideo := _videos g.
Definition versions (g : BaseGame) : list BoardGameVersion := _versions g.
End Games.

(** ** Mutators of [BoardGame]

    A method returns the object as the call leaves it, also when it raises:
    what it changed before the exception stays changed. *)

Definition set_game_data (d : dict) (b : BaseGame) : BaseGame :=
  mk_BaseGame (_thumbnail b) (_image b) (_stats b) (_versions b)
              (_versions_set b) (_year_published b) (game_id b) (game_name b)
              d.

Definition with_data (d : dict) (g : BoardGame) : BoardGame :=
  mk_BoardGame (_expansions g) (_expansions_set g) (_expands g)
               (_expands_set g) (_videos g) (_videos_ids g) (_comments g)
               (_poll_results_numplayers g) (_poll_results_playerage g)
               (_poll_results_langdeps g) (set_game_data d (base g)).

Definition with_expansions (l : list Thing) (s : pyset) (g : BoardGame)
  : BoardGame :=
  mk_BoardGame l s (_expands g) (_expands_set g) (_videos g) (_videos_ids g)
               (_comments g) (_poll_results_numplayers g)
               (_poll_results_playerage g) (_poll_results_langdeps g) (base g).

Definition with_expands (l : list Thing) (s : pyset) (g : BoardGame)
  : BoardGame :=
  mk_BoardGame (_expansions g) (_expansions_set g) l s (_videos g)
               (_videos_ids g) (_comments g) (_poll_results_numplayers g)
               (_poll_results_playerage g) (_poll_results_langdeps g) (base g).

Definition with_comments (l : list value) (g : BoardGame) : BoardGame :=
  mk_BoardGame (_expansions g) (_expansions_set g) (_expands g)
               (_expands_set g) (_videos g) (_videos_ids g) l
               (_poll_results_numplayers g) (_poll_results_playerage g)
               (_poll_results_langdeps g) (base g).

Definition self_data (g : BoardGame) : dict := game_data (base g).

Definition add_comment (self : BoardGame) (data : value) : BoardGame :=
  with_comments (_comments self ++ [data]) self.

(** The body shared by [add_expansion] and [add_expanded_game]; [field] is the
    key of the raw list in [self._data], [seen] and [things] are the set and
    the list of the object, [update] stores them back.

      try:
          if data["id"] not in seen:
              self._data[field].append(data)
              seen.add(data["id"])
              things.append(Thing(data))
      except KeyError:
          raise BGGError(msg)

    Values are trees here: the list that [append] extends is found under
    [field] and nowhere else.  In Python the same list object can also be
    held under another key of the mapping or by the caller, and is then
    seen extended there too; what is stated of a call therefore speaks of
    the attributes of the object and of the entry under [field] only. *)
Definition add_reference (field msg : string)
    (seen : BoardGame -> pyset) (things : BoardGame -> list Thing)
    (update : list Thing -> pyset -> BoardGame -> BoardGame)
    (self : BoardGame) (data : dict) : BoardGame * result unit :=
  match dict_lookup "id" data with
  | None => (self, raise (BGGError msg))
  | Some i =>
      match py_hash i with
      | inl e => (self, raise e)
      | inr k =>
          if set_mem k (seen self) then (self, ok tt)
          else
            match dict_lookup field (self_data self) with
            | None => (self, raise (BGGError msg))
            | Some raw =>
                match py_append raw (VDict data) with
                | inl e => (self, except_KeyError msg (raise e))
                | inr raw' =>
                    let self1 :=
                      with_data (dict_set field raw' (self_data self)) self in
                    let self2 :=
                      update (things self1) (set_add k (seen self1)) self1 in
                    match Thing_init data with
                    | inl e => (self2, except_KeyError msg (raise e))
                    | inr t =>
                        (update (things self2 ++ [t]) (seen self2) self2,
                         ok tt)
                    end
                end
            end
      end
  end.

Definition add_expanded_game : BoardGame -> dict -> BoardGame * result unit :=
  add_reference "expands" "invalid expanded game data"
                _expands_set _expands with_expands.

Definition add_expansion : BoardGame -> dict -> BoardGame * result unit :=
  add_reference "expansions" "invalid expansion data"
                _expansions_set _expansions with_expansions.

(** The raw identifier of a record, as the sets hold it. *)
Definition raw_id (d : dict) : option key :=
  match dict_lookup "id" d with
  | Some i => match py_hash i with inr k => Some k | inl _ => None end
  | None => None
  end.

(** ** Sample records *)

Definition identity_url (v : value) : result value := ok v.

Definition rank_record (i : Z) (name : string) (v : value) : value :=
  VDict [("id", VInt i); ("type", VStr "subtype"); ("name", VStr name);
         ("friendlyname", VStr "rank"); ("value", v)].

Definition thing_record (i : Z) (name : string) : dict :=
  [("id", VInt i); ("name", VStr name)].

Definition video_record (i : Z) (name : string) (uploader : value) : dict :=
  [("id", VInt i); ("name", VStr name); ("uploader_id", uploader);
   ("post_date", VStr "2021-05-01T10:00:00-07:00")].

Definition sample_game : dict :=
  [("id", VInt 13); ("name", VStr "Catan");
   ("stats", VDict [("ranks", VList [rank_record 1 "boardgame" (VStr "59")])]);
   ("expansions",
    VList [VDict (thing_record 1 "a"); VDict (thing_record 2 "b");
           VDict (thing_record 1 "c")]);
   ("expands", VList []);
   ("videos", VList [VDict (video_record 5 "v" (VStr "77"));
                     VDict (video_record 5 "w" (VStr "78"))]);
   ("versions", VList [VDict (thing_record 9 "first edition")]);
   ("comments",
    VList [VDict [("username", VStr "a"); ("comment", VStr "hi");
                  ("rating", VStr "n/a")]]);
   ("suggested_playerage",
    VDict [("results", VDict [("10", VInt 3); ("12", VInt 4)])])].

(** Ranks keyed as in the data model of the specification: the kind of the
    rank under [type], no identifier. *)
Definition typed_rank (type : string) (v : value) : value :=
  VDict [("type", VStr type); ("value", v)].

Definition stats_typed : value :=
  VDict [("ranks", VList [typed_rank "family" (VInt 10);
                          typed_rank "boardgame" (VInt 5);
                          typed_rank "boardgame" (VInt 7)])].

(** The same ranks as identified things, the kind still under [type]. *)
Definition typed_rank_with_id (i : Z) (type name : string) (v : value)
  : value :=
  VDict [("id", VInt i); ("type", VStr type); ("name", VStr name);
         ("value", v)].

Definition stats_typed_with_ids : value :=
  VDict [("ranks",
          VList [typed_rank_with_id 1 "family" "strategygames" (VInt 10);
                 typed_rank_with_id 2 "boardgame" "overall" (VInt 5);
                 typed_rank_with_id 3 "boardgame" "overall" (VInt 7)])].

(** Ranks with the kind under [name], as the constructor reads it. *)
Definition named_rank (i : Z) (name : string) (v : value) : dict :=
  [("id", VInt i); ("name", VStr name); ("value", v)].

Definition stats_named : dict :=
  [("ranks", VList [VDict (named_rank 1 "family" (VInt 10));
                    VDict (named_rank 2 "boardgame" (VInt 5));
                    VDict (named_rank 3 "boardgame" (VInt 7))])].

(** A rank of the service for a game that is not ranked. *)
Definition stats_not_ranked : value :=
  VDict [("ranks",
          VList [VDict [("id", VStr "1"); ("type", VStr "boardgame");
                        ("name", VStr "boardgame");
                        ("friendlyname", VStr "Board Game Rank");
                        ("value", VStr "Not Ranked")]])].

Definition stats_not_ranked_subtype : value :=
  VDict [("ranks", VList [rank_record 1 "boardgame" (VStr "Not Ranked")])].

Definition stats_family_only : dict :=
  [("ranks", VList [VDict (named_rank 1 "family" (VInt 10))])].

(** ** Deduplication by identifier, as a specification

    Two records have the same identifier when both have one and the two are
    equal as members of a set.  [first_by_id l] keeps, for every identifier,
    the first record of [l] that has it, in the order of [l]. *)
Definition same_id (a b : dict) : bool :=
  match raw_id a, raw_id b with
  | Some x, Some y => key_eqb x y
  | _, _ => false
  end.

Fixpoint first_by_id (l : list dict) : list dict :=
  match l with
  | [] => []
  | x :: rest => x :: filter (fun y => negb (same_id x y)) (first_by_id rest)
  end.

(** The identifier of a record is in the set [s]. *)
Definition seen_id (s : pyset) (d : dict) : bool :=
  match raw_id d with
  | Some k => set_mem k s
  | None => false
  end.

(** [out] is what deduplication makes of the records that iterating over
    [input] yields: one object per first record, constructed by [ctor]. *)
Definition deduplicated {W} (ctor : dict -> result W) (input : value)
    (out : list W) : Prop :=
  exists ds,
    py_iter input = inr (map VDict ds)
    /\ Forall2 (fun d w => ctor d = inr w) (first_by_id ds) out.

Definition game_without_stats : dict :=
  [("id", VInt 13); ("name", VStr "Catan")].

Definition game_without_stats_bad_poll : dict :=
  [("id", VInt 13); ("name", VStr "Catan");
   ("suggested_numplayers", VDict [])].

Definition game_with (field : string) (l : list value) : dict :=
  [("id", VInt 13); ("name", VStr "Catan"); ("stats", VDict []);
   (field, VList l)].

Definition record_without_id : dict := [("name", VStr "nameless")].

(** What [post_date] becomes for a string: the text without its last six
    characters, parsed, or null. *)
Definition parsed_post_date (s : string) : value :=
  let l := chars s in
  match strptime_chars (firstn (List.length l - 6)%nat l) with
  | Some dt => VDatetime dt
  | None => VNone
  end.

Definition video_with_date (date : string) : dict :=
  [("id", VInt 5); ("name", VStr "v"); ("uploader_id", VInt 7);
   ("post_date", VStr date)].

Definition video_without_uploader : dict :=
  [("id", VInt 5); ("name", VStr "v")].

(** The set of identifiers goes with the list of things: it holds the raw
    identifiers of the records that the things wrap, in the same order.  This
    is so after construction and after every call of a mutator that
    returns. *)
Definition mirrors (seen : pyset) (things : list Thing) : Prop :=
  map Some seen = map (fun t => raw_id (Thing_data t)) things.

(** The game after [add_expansion] has appended a new record. *)
Definition with_new_expansion (raw : list value) (data : dict) (k : key)
    (t : Thing) (g : BoardGame) : BoardGame :=
  with_expansions (_expansions g ++ [t]) (_expansions_set g ++ [k])
    (with_data (dict_set "expansions" (VList (raw ++ [VDict data]))
                         (self_data g)) g).

Definition with_new_expanded_game (raw : list value) (data : dict) (k : key)
    (t : Thing) (g : BoardGame) : BoardGame :=
  with_expands (_expands g ++ [t]) (_expands_set g ++ [k])
    (with_data (dict_set "expands" (VList (raw ++ [VDict data]))
                         (self_data g)) g).

Definition record_with_text_id : dict :=
  [("id", VStr "abc"); ("name", VStr "x")].

Definition record_with_list_id : dict :=
  [("id", VList [VInt 3]); ("name", VStr "x")].

Definition game_without_lists : dict :=
  [("id", VInt 13); ("name", VStr "Catan"); ("stats", VDict [])].

(** The text of a timestamp, as [datetime.isoformat] writes it. *)
Definition digit_char (n : Z) : ascii := ascii_of_nat (48 + Z.to_nat n).

Definition two_digits (n : Z) : list ascii :=
  [digit_char (n / 10); digit_char (n mod 10)].

Definition four_digits (n : Z) : list ascii :=
  [digit_char (n / 1000); digit_char (n / 100 mod 10);
   digit_char (n / 10 mod 10); digit_char (n mod 10)].

Definition isoformat (dt : datetime) : list ascii :=
  four_digits (dt_year dt)
  ++ "-"%char :: two_digits (dt_month dt)
  ++ "-"%char :: two_digits (dt_day dt)
  ++ "T"%char :: two_digits (dt_hour dt)
  ++ ":"%char :: two_digits (dt_minute dt)
  ++ ":"%char :: two_digits (dt_second dt).

Definition valid_datetime (dt : datetime) : Prop :=
  1 <= dt_year dt <= 9999
  /\ 1 <= dt_month dt <= 12
  /\ 1 <= dt_day dt <= days_in_month (dt_year dt) (dt_month dt)
  /\ 0 <= dt_hour dt <= 23
  /\ 0 <= dt_minute dt <= 59
  /\ 0 <= dt_second dt <= 59.

(** ** Read accessors

    The properties of the classes that read the backing mapping or the
    attributes set by the constructors. *)

(** [BoardGameStats]: [self._data.get(k)] *)
Definition Stats_users_rated (s : BoardGameStats) : value :=
  dict_get "usersrated" VNone (stats_data s).
Definition Stats_users_owned (s : BoardGameStats) : value :=
  dict_get "owned" VNone (stats_data s).
Definition Stats_users_trading (s : BoardGameStats) : value :=
  dict_get "trading" VNone (stats_data s).
Definition Stats_users_wanting (s : BoardGameStats) : value :=
  dict_get "wanting" VNone (stats_data s).
Definition Stats_users_wishing (s : BoardGameStats) : value :=
  dict_get "wishing" VNone (stats_data s).
Definition Stats_users_commented (s : BoardGameStats) : value :=
  dict_get "numcomments" VNone (stats_data s).

(** [BaseGame] *)
Definition BaseGame_year (self : BaseGame) : value := _year_published self.
Definition BaseGame_thumbnail (self : BaseGame) : value := _thumbnail self.
Definition BaseGame_image (self : BaseGame) : value := _image self.
Definition BaseGame_users_rated (self : BaseGame) : value :=
  Stats_users_rated (_stats self).
Definition BaseGame_bgg_rank (self : BaseGame) : result value :=
  bgg_rank (_stats self).
Definition BaseGame_ranks (self : BaseGame) : list BoardGameRank :=
  ranks (_stats self).

(** [BoardGame]: the numbers of owners and traders are read from the
    statistics, the numbers of users wanting, wishing and commenting from the
    mapping of the game itself. *)
Definition BoardGame_users_owned (self : BoardGame) : value :=
  Stats_users_owned (_stats (base self)).
Definition BoardGame_users_trading (self : BoardGame) : value :=
  Stats_users_trading (_stats (base self)).
Definition BoardGame_users_wanting (self : BoardGame) : value :=
  dict_get "wanting" VNone (self_data self).
Definition BoardGame_users_wishing (self : BoardGame) : value :=
  dict_get "wishing" VNone (self_data self).
Definition BoardGame_users_commented (self : BoardGame) : value :=
  dict_get "numcomments" VNone (self_data self).
Definition comments (self : BoardGame) : list value := _comments self.
Definition player_number_votes (self : BoardGame) : list dict :=
  _poll_results_numplayers self.
Definition player_age_votes (self : BoardGame) : list dict :=
  _poll_results_playerage self.
Definition language_dependence_votes (self : BoardGame) : list dict :=
  _poll_results_langdeps self.

(** [CollectionBoardGame] *)
Module Collection.

(** [bool(int(self._data.get(k, 0)))] *)
Definition flag (k : string) (self : BaseGame) : result bool :=
  z <- py_int (dict_get k (VInt 0) (game_data self));;
  ok (negb (z =? 0)).

Definition owned : BaseGame -> result bool := flag "own".
Definition preordered : BaseGame -> result bool := flag "preordered".
Definition prev_owned : BaseGame -> result bool := flag "prevowned".
Definition want : BaseGame -> result bool := flag "want".
Definition want_to_buy : BaseGame -> result bool := flag "wanttobuy".
Definition want_to_play : BaseGame -> result bool := flag "wanttoplay".
Definition for_trade : BaseGame -> result bool := flag "fortrade".
Definition wishlist : BaseGame -> result bool := flag "wishlist".

(** [try: int(self._data.get("wishlistpriority")) / except TypeError: None] *)
Definition wishlist_priority (self : BaseGame) : result value :=
  match py_int (dict_get "wishlistpriority" VNone (game_data self)) with
  | inr z => ok (VInt z)
  | inl TypeError => ok VNone
  | inl e => raise e
  end.

(** [self._versions[0] if len(self._versions) else None]; [None] is Python's
    [None]. *)
Definition version (self : BaseGame) : option BoardGameVersion :=
  match _versions self with
  | v :: _ => Some v
  | [] => None
  end.

Definition numplays (self : BaseGame) : value :=
  dict_get "numplays" (VInt 0) (game_data self).

Definition last_modified (self : BaseGame) : value :=
  dict_get "lastmodified" VNone (game_data self).

End Collection.

(** ** Games in use

    The games that a program can hold: constructed, then changed by calls of
    the mutators that returned. *)
Inductive reachable (fix_url fix_unsigned_negative : value -> result value)
  : BoardGame -> Prop :=
| reach_init (data : dict) (g : BoardGame) :
    BoardGame_init fix_url fix_unsigned_negative data = inr g ->
    reachable fix_url fix_unsigned_negative g
| reach_comment (g : BoardGame) (c : value) :
    reachable fix_url fix_unsigned_negative g ->
    reachable fix_url fix_unsigned_negative (add_comment g c)
| reach_expansion (g g' : BoardGame) (d : dict) :
    reachable fix_url fix_unsigned_negative g ->
    add_expansion g d = (g', ok tt) ->
    reachable fix_url fix_unsigned_negative g'
| reach_expanded_game (g g' : BoardGame) (d : dict) :
    reachable fix_url fix_unsigned_negative g ->
    add_expanded_game g d = (g', ok tt) ->
    reachable fix_url fix_unsigned_negative g'.

(** The raw identifiers of the records that the things wrap. *)
Definition raw_ids (things : list Thing) : list (option key) :=
  map (fun t => raw_id (Thing_data t)) things.

(** The list of things is the deduplication of the raw list that the backing
    mapping holds under [field], when it holds a list. *)
Definition in_sync (field : string) (things : list Thing) (data : dict)
  : Prop :=
  forall raw,
    dict_lookup field data = Some (VList raw) ->
    exists ds, raw = map VDict ds /\ map Thing_data things = first_by_id ds.

(** [add_comment] for each element of a list, in order. *)
Definition add_comments (self : BoardGame) (cs : list value) : BoardGame :=
  fold_left add_comment cs self.

Definition collection_game (own : value) : dict :=
  [("id", VInt 13); ("name", VStr "Catan"); ("stats", VDict []);
   ("own", own); ("wishlistpriority", VStr "3");
   ("versions", VList [VDict (thing_record 9 "first edition");
                       VDict (thing_record 10 "second edition")])].

Definition prefix_url (v : value) : result value :=
  match v with
  | VStr s => ok (VStr ("http:" ++ s))
  | _ => raise AttributeError
  end.

Definition version_record : dict :=
  [("id", VInt 9); ("name", VStr "first edition");
   ("thumbnail", VStr "//cf.geekdo-images.com/t.jpg");
   ("language", VStr "English")].

Definition game_with_counts : dict :=
  [("id", VInt 13); ("name", VStr "Catan"); ("wishing", VInt 4);
   ("stats", VDict [("owned", VInt 7); ("wanting", VInt 5)])].

(** The set holds the raw identifiers of the things, in their order and
    once each. *)
Definition distinct_ids (seen : pyset) (things : list Thing) : Prop :=
  map Some seen = raw_ids things /\ NoDup seen.

(** [isinstance(v, dict)] *)
Definition is_record (v : value) : bool :=
  match v with VDict _ => true | _ => false end.

Definition stats_boardgame_null : dict :=
  [("ranks", VList [VDict (named_rank 1 "boardgame" VNone)])].

(** The keys that the constructor of a game reads besides [id], [name] and
    [stats]. *)
Definition optional_keys : list string :=
  ["expansions"; "expands"; "videos"; "comments"; "suggested_numplayers";
   "suggested_playerage"; "language_dependence"; "versions"; "thumbnail";
   "image"; "yearpublished"].

(** * Properties *)

(** ** The builtins on sample inputs *)

Example py_int_5 : py_int (VStr " 5") = ok 5.
Proof. reflexivity. Qed.

Example py_int_neg : py_int (VStr "-1_000") = ok (-1000).
Proof. reflexivity. Qed.

Example py_int_not_ranked : py_int (VStr "Not Ranked") = raise ValueError.
Proof. reflexivity. Qed.

Example py_int_none : py_int VNone = raise TypeError.
Proof. reflexivity. Qed.

Example strptime_ok :
  strptime (VStr "2021-05-01T10:00:00") = ok (mk_datetime 2021 5 1 10 0 0).
Proof. reflexivity. Qed.

Example strptime_short_fields :
  strptime (VStr "2021-5-1t7:3:9") = ok (mk_datetime 2021 5 1 7 3 9).
Proof. reflexivity. Qed.

Example strptime_feb_30 :
  strptime (VStr "2021-02-30T10:00:00") = raise ValueError.
Proof. reflexivity. Qed.

Example strptime_leftover :
  strptime (VStr "2021-05-01T10:00:075") = raise ValueError.
Proof. reflexivity. Qed.

(** ** The error monad and dictionaries *)

Lemma bind_inr {A B} (r : result A) (k : A -> result B) (b : B) :
  bind r k = inr b -> exists a, r = inr a /\ k a = inr b.
Proof.
  destruct r as [e | a]; simpl; intros H.
  - discriminate.
  - exists a. split; [reflexivity | exact H].
Qed.

Lemma bind_inl {A B} (r : result A) (k : A -> result B) (e : exn) :
  r = inl e -> bind r k = inl e.
Proof. intros ->. reflexivity. Qed.

Ltac bind_inv H :=
  let a := fresh "a" in
  let Ha := fresh "Ha" in
  apply bind_inr in H; destruct H as (a & Ha & H).

Lemma key_eqb_eq (a b : key) : key_eqb a b = true <-> a = b.
Proof.
  destruct a as [ | x | x | x], b as [ | y | y | y]; simpl;
    try (split; [discriminate | congruence]).
  - tauto.
  - rewrite Z.eqb_eq. split; congruence.
  - rewrite String.eqb_eq. split; congruence.
  - destruct x as [a1 a2 a3 a4 a5 a6], y as [b1 b2 b3 b4 b5 b6].
    unfold datetime_eqb; simpl.
    rewrite !andb_true_iff, !Z.eqb_eq.
    split.
    + intros (((((-> & ->) & ->) & ->) & ->) & ->). reflexivity.
    + intros H. injection H as -> -> -> -> -> ->. tauto.
Qed.

Lemma key_eqb_refl (a : key) : key_eqb a a = true.
Proof. apply key_eqb_eq. reflexivity. Qed.

Lemma key_eqb_neq (a b : key) : key_eqb a b = false <-> a <> b.
Proof.
  rewrite <- key_eqb_eq. destruct (key_eqb a b); split; congruence.
Qed.

Lemma set_mem_In (k : key) (s : pyset) : set_mem k s = true <-> In k s.
Proof.
  unfold set_mem. rewrite existsb_exists. split.
  - intros (x & Hin & Heq). apply key_eqb_eq in Heq. subst. exact Hin.
  - intros Hin. exists k. split; [exact Hin | apply key_eqb_refl].
Qed.

Lemma dict_lookup_set_same (k : string) (v : value) (d : dict) :
  dict_lookup k (dict_set k v d) = Some v.
Proof.
  induction d as [ | [k' v'] r IH]; simpl.
  - rewrite String.eqb_refl. reflexivity.
  - destruct (String.eqb k k') eqn:E; simpl; rewrite E; auto.
Qed.

Lemma dict_lookup_set_other (k k' : string) (v : value) (d : dict) :
  k <> k' -> dict_lookup k (dict_set k' v d) = dict_lookup k d.
Proof.
  intros Hne. induction d as [ | [k2 v2] r IH]; simpl.
  - destruct (String.eqb k k') eqn:E; [ | reflexivity].
    apply String.eqb_eq in E. contradiction.
  - destruct (String.eqb k' k2) eqn:E2; simpl.
    + apply String.eqb_eq in E2. subst k2.
      destruct (String.eqb k k') eqn:E; [ | reflexivity].
      apply String.eqb_eq in E. contradiction.
    + destruct (String.eqb k k2); [reflexivity | exact IH].
Qed.

Lemma Thing_init_data (d : dict) (t : Thing) :
  Thing_init d = inr t -> Thing_data t = d.
Proof.
  unfold Thing_init. destruct (dict_lookup "id" d); [ | discriminate].
  destruct (py_int v); [discriminate | ].
  intros H. injection H as <-. reflexivity.
Qed.

Lemma Thing_init_id (d : dict) (t : Thing) :
  Thing_init d = inr t ->
  exists i, dict_lookup "id" d = Some i /\ py_int i = inr (Thing_id t).
Proof.
  unfold Thing_init. destruct (dict_lookup "id" d) as [i | ]; [ | discriminate].
  destruct (py_int i) as [e | z] eqn:E; [discriminate | ].
  intros H. injection H as <-. exists i. split; [reflexivity | exact E].
Qed.

Lemma Thing_init_ok (d : dict) (i : value) (z : Z) :
  dict_lookup "id" d = Some i -> py_int i = inr z ->
  Thing_init d = inr (mk_Thing z (dict_get "name" VNone d) d).
Proof. unfold Thing_init. intros -> ->. reflexivity. Qed.

Lemma Thing_init_error (d : dict) (e : exn) :
  Thing_init d = inl e -> is_BGGError e = true.
Proof.
  unfold Thing_init. destruct (dict_lookup "id" d) as [i | ].
  - destruct (py_int i); intros H; inversion H; reflexivity.
  - intros H; inversion H; reflexivity.
Qed.

Lemma py_int_error (v : value) (e : exn) :
  py_int v = inl e -> e = ValueError \/ e = TypeError.
Proof.
  destruct v; simpl; try (intros H; inversion H; auto; fail).
  destruct (int_of_chars (chars s)); intros H; inversion H; auto.
Qed.

(** ** Statistics *)

Lemma ranks_step_inv st rank st' :
  ranks_step st rank = inr st' ->
  exists r t,
    rank = VDict r /\ BoardGameRank_init r = inr t
    /\ snd st' = snd st ++ [t]
    /\ (if named_boardgame r
        then exists v, rank_value_int rank = inr v /\ fst st' = Some v
        else fst st' = fst st).
Proof.
  unfold ranks_step, named_boardgame.
  destruct rank as [ | | | | | r]; try discriminate.
  intros H. bind_inv H. bind_inv H. injection H as <-.
  exists r, a0. simpl. repeat split; auto.
  destruct (eq_boardgame (dict_get "name" VNone r)).
  - bind_inv Ha. injection Ha as <-. exists a1. auto.
  - injection Ha as <-. reflexivity.
Qed.

Lemma ranks_loop_app l1 l2 st :
  ranks_loop (l1 ++ l2) st = (st1 <- ranks_loop l1 st;; ranks_loop l2 st1).
Proof.
  revert st. induction l1 as [ | x l1 IH]; intros st; simpl.
  - reflexivity.
  - destruct (ranks_step st x) as [e | st1]; simpl; auto.
Qed.

Lemma ranks_loop_records l st st' :
  ranks_loop l st = inr st' ->
  exists rs, l = map VDict rs
             /\ map Thing_data (snd st') = map Thing_data (snd st) ++ rs.
Proof.
  revert st. induction l as [ | x l IH]; intros st; simpl.
  - intros H. injection H as <-. exists []. rewrite app_nil_r. auto.
  - intros H. bind_inv H.
    apply ranks_step_inv in Ha. destruct Ha as (r & t & -> & Ht & Hs & _).
    destruct (IH _ H) as (rs & -> & Hrs).
    exists (r :: rs). split; [reflexivity | ].
    rewrite Hrs, Hs, map_app. simpl.
    rewrite (Thing_init_data _ _ Ht), <- app_assoc. reflexivity.
Qed.

Lemma ranks_loop_unnamed rs st st' :
  Forall (fun r => named_boardgame r = false) rs ->
  ranks_loop (map VDict rs) st = inr st' -> fst st' = fst st.
Proof.
  revert st. induction rs as [ | r rs IH]; intros st Hall; cbn [ranks_loop map].
  - intros H. injection H as <-. reflexivity.
  - inversion Hall as [ | ? ? Hr Hrs]; subst.
    intros H. bind_inv H.
    apply ranks_step_inv in Ha. destruct Ha as (r' & t & Er & _ & _ & Hf).
    injection Er as <-. rewrite Hr in Hf.
    rewrite (IH _ Hrs H). exact Hf.
Qed.

Lemma rank_value_int_cases (r : dict) (v : value) :
  rank_value_int (VDict r) = inr v ->
  match dict_lookup "value" r with
  | None => v = VNone
  | Some x =>
      match py_int x with
      | inr z => v = VInt z
      | inl e => e = TypeError /\ v = VNone
      end
  end.
Proof.
  unfold rank_value_int. simpl.
  destruct (dict_lookup "value" r) as [x | ]; simpl.
  - destruct (py_int x) as [e | z] eqn:E; simpl.
    + destruct (py_int_error _ _ E) as [-> | ->]; [discriminate | ].
      intros H. injection H as <-. auto.
    + intros H. injection H as <-. reflexivity.
  - intros H. injection H as <-. reflexivity.
Qed.

Lemma map_VDict_inj (a b : list dict) : map VDict a = map VDict b -> a = b.
Proof.
  revert b. induction a as [ | x a IH]; intros [ | y b]; simpl;
    try discriminate.
  - reflexivity.
  - intros E. injection E as -> E. f_equal. apply IH, E.
Qed.

Lemma BoardGameStats_init_inv (d : dict) (s : BoardGameStats) :
  BoardGameStats_init (VDict d) = inr s ->
  exists rs,
    py_iter (dict_get "ranks" (VList []) d) = inr (map VDict rs)
    /\ ranks_loop (map VDict rs) (None, []) = inr (_bgg_rank s, _ranks s)
    /\ stats_data s = d.
Proof.
  unfold BoardGameStats_init. intros H. bind_inv H. bind_inv H.
  injection H as <-. simpl.
  destruct (ranks_loop_records _ _ _ Ha0) as (rs & -> & _).
  exists rs. rewrite Ha0. destruct a0; auto.
Qed.

(** C1, as amended: the constructor of the statistics reads the kind of a
    rank from the field [name].  For every statistics object constructed from
    a mapping, the list [ranks] holds one rank per input entry, wrapping that
    entry, in the order of the input and with duplicates kept; and when some
    entry has [name] equal to "boardgame", [_bgg_rank] is set from the [value]
    of the last such entry: the integer it converts to, or null when the
    value is missing or is not of a type that converts.  For the ranks
    [{id:1, name:"family", value:10}, {id:2, name:"boardgame", value:5},
    {id:3, name:"boardgame", value:7}] the rank is 7 and the list has the
    three entries in order. *)
Theorem stats_bgg_rank_from_last_named_boardgame :
  (forall (d : dict) (s : BoardGameStats),
      BoardGameStats_init (VDict d) = inr s ->
      exists rs,
        py_iter (dict_get "ranks" (VList []) d) = inr (map VDict rs)
        /\ map Thing_data (ranks s) = rs
        /\ forall pre r post,
            rs = pre ++ r :: post ->
            named_boardgame r = true ->
            Forall (fun x => named_boardgame x = false) post ->
            match dict_lookup "value" r with
            | None => _bgg_rank s = Some VNone
            | Some x =>
                match py_int x with
                | inr z => _bgg_rank s = Some (VInt z)
                | inl e => e = TypeError /\ _bgg_rank s = Some VNone
                end
            end)
  /\ (exists s,
         BoardGameStats_init (VDict stats_named) = inr s
         /\ bgg_rank s = ok (VInt 7)
         /\ map Thing_data (ranks s)
            = [named_rank 1 "family" (VInt 10);
               named_rank 2 "boardgame" (VInt 5);
               named_rank 3 "boardgame" (VInt 7)]).
Proof.
  split.
  - intros d s H.
    destruct (BoardGameStats_init_inv _ _ H) as (rs & Hit & Hloop & _).
    exists rs. split; [exact Hit | ]. split.
    + destruct (ranks_loop_records _ _ _ Hloop) as (rs' & Hrs' & Hdata).
      simpl in Hdata. unfold ranks. rewrite Hdata.
      symmetry. apply map_VDict_inj, Hrs'.
    + intros pre r post -> Hr Hpost.
      rewrite map_app in Hloop. cbn [map] in Hloop.
      rewrite ranks_loop_app in Hloop. bind_inv Hloop.
      cbn [ranks_loop] in Hloop. bind_inv Hloop.
      apply ranks_step_inv in Ha0.
      destruct Ha0 as (r' & t & Er & _ & _ & Hf). injection Er as <-.
      rewrite Hr in Hf. destruct Hf as (v & Hv & Hf).
      apply ranks_loop_unnamed in Hloop; [ | exact Hpost].
      simpl in Hloop. rewrite Hf in Hloop.
      apply rank_value_int_cases in Hv.
      destruct (dict_lookup "value" r) as [x | ].
      * destruct (py_int x) as [e | z].
        -- destruct Hv as [-> ->]. auto.
        -- subst v. exact Hloop.
      * subst v. exact Hloop.
  - eexists. split; [reflexivity | ]. split; reflexivity.
Qed.

Lemma stats_bgg_rank_from_last_named_boardgame_witness :
  exists s,
    BoardGameStats_init (VDict stats_named) = inr s
    /\ _bgg_rank s = Some (VInt 7).
Proof.
  destruct (BoardGameStats_init (VDict stats_named)) as [e | s] eqn:E;
    [vm_compute in E; discriminate | ].
  exists s. split; [reflexivity | ].
  destruct (proj1 stats_bgg_rank_from_last_named_boardgame stats_named s E)
    as (rs & Hit & _ & Hlast).
  vm_compute in Hit. injection Hit as Hit.
  assert (Hrs : rs = [named_rank 1 "family" (VInt 10)]
                       ++ named_rank 2 "boardgame" (VInt 5)
                       :: [named_rank 3 "boardgame" (VInt 7)]).
  { destruct rs as [ | r1 [ | r2 [ | r3 [ | r4 rs]]]]; try discriminate.
    simpl in Hit. injection Hit as <- <- <-. reflexivity. }
  exact (Hlast [named_rank 1 "family" (VInt 10);
                named_rank 2 "boardgame" (VInt 5)]
               (named_rank 3 "boardgame" (VInt 7)) []
               ltac:(rewrite Hrs; reflexivity) eq_refl (Forall_nil _)).
Defined.

(** C1 as stated fails: with the kind of the ranks under [type], no rank is
    recognised as the primary one.  The ranks of the claim, which have no
    [id], are refused; with identifiers added, the statistics are constructed
    and [_bgg_rank] is never assigned, so that reading [bgg_rank] is an
    attribute error and not 7. *)
Lemma stats_typed_ranks_have_no_bgg_rank :
  (exists e, BoardGameStats_init stats_typed = raise e
             /\ is_BGGError e = true)
  /\ exists s,
      BoardGameStats_init stats_typed_with_ids = inr s
      /\ map rank_type (ranks s)
         = [VStr "family"; VStr "boardgame"; VStr "boardgame"]
      /\ _bgg_rank s = None
      /\ bgg_rank s = raise AttributeError.
Proof.
  split; [eexists; split; reflexivity | ].
  eexists. split; [reflexivity | ]. repeat split; reflexivity.
Qed.

(** C2: a rank named "boardgame" whose value is the string "Not Ranked"
    makes the constructor raise a ValueError, which the handler for
    KeyError and TypeError lets through. *)
Theorem stats_not_ranked_raises :
  BoardGameStats_init stats_not_ranked = raise ValueError
  /\ BoardGameStats_init stats_not_ranked_subtype = raise ValueError.
Proof. split; reflexivity. Qed.

(** C10: for every statistics object constructed from a mapping none of
    whose ranks has [name] equal to "boardgame", the attribute [_bgg_rank] is
    never assigned, and reading [bgg_rank] is answered by the dynamic
    attribute lookup of the generic wrapper. *)
Theorem stats_without_boardgame_rank_leave_bgg_rank_unset
    (d : dict) (rs : list dict) (s : BoardGameStats) :
  BoardGameStats_init (VDict d) = inr s ->
  py_iter (dict_get "ranks" (VList []) d) = inr (map VDict rs) ->
  Forall (fun r => named_boardgame r = false) rs ->
  _bgg_rank s = None
  /\ bgg_rank s
     = match DictObject_getattr d "_bgg_rank" with
       | inr v => ok v
       | inl _ => DictObject_getattr d "bgg_rank"
       end.
Proof.
  intros H Hit Hall.
  destruct (BoardGameStats_init_inv _ _ H) as (rs' & Hit' & Hloop & Hd).
  rewrite Hit in Hit'. injection Hit' as Hrs. rewrite <- Hrs in Hloop.
  apply ranks_loop_unnamed in Hloop; [ | exact Hall]. simpl in Hloop.
  split; [exact Hloop | ].
  unfold bgg_rank. rewrite Hloop, Hd. reflexivity.
Qed.

Lemma stats_without_boardgame_rank_leave_bgg_rank_unset_witness :
  exists s,
    BoardGameStats_init (VDict stats_family_only) = inr s
    /\ _bgg_rank s = None
    /\ bgg_rank s = raise AttributeError.
Proof.
  eexists. split; [reflexivity | ].
  apply (stats_without_boardgame_rank_leave_bgg_rank_unset
           stats_family_only [named_rank 1 "family" (VInt 10)]).
  - reflexivity.
  - reflexivity.
  - repeat constructor.
Defined.

(** ** Lists without duplicate identifiers *)

Lemma except_KeyError_inr {A} (msg : string) (r : result A) (a : A) :
  except_KeyError msg r = inr a -> r = inr a.
Proof. destruct r as [[] | ]; simpl; congruence. Qed.

Lemma raw_id_Some (d : dict) (k : key) :
  raw_id d = Some k <->
  exists i, dict_lookup "id" d = Some i /\ py_hash i = inr k.
Proof.
  unfold raw_id. destruct (dict_lookup "id" d) as [i | ].
  - destruct (py_hash i) as [e | k'] eqn:E; split.
    + discriminate.
    + intros (i' & Hi & Hk). injection Hi as <-. congruence.
    + intros H. injection H as <-. exists i. auto.
    + intros (i' & Hi & Hk). injection Hi as <-. congruence.
  - split; [discriminate | ]. intros (i & Hi & _). discriminate.
Qed.

Lemma key_eqb_sym (a b : key) : key_eqb a b = key_eqb b a.
Proof.
  destruct (key_eqb b a) eqn:E.
  - apply key_eqb_eq in E. subst. apply key_eqb_refl.
  - apply key_eqb_neq. apply key_eqb_neq in E. congruence.
Qed.

Section UniqueFacts.
Variable W : Type.
Variable ctor : dict -> result W.
Variable msg : string.

Lemma unique_step_inv st x st' :
  unique_step ctor msg st x = inr st' ->
  exists d k,
    x = VDict d /\ raw_id d = Some k
    /\ (if set_mem k (snd st) then st' = st
        else exists w, ctor d = inr w
                       /\ st' = (fst st ++ [w], snd st ++ [k])).
Proof.
  unfold unique_step. intros H. apply except_KeyError_inr in H.
  destruct x as [ | | | | | d]; try discriminate.
  bind_inv H. bind_inv H. exists d, a0. split; [reflexivity | ].
  assert (Hk : raw_id d = Some a0).
  { apply raw_id_Some. exists a. split; [ | exact Ha0].
    simpl in Ha. destruct (dict_lookup "id" d); [ | discriminate].
    injection Ha as ->. reflexivity. }
  split; [exact Hk | ].
  destruct (set_mem a0 (snd st)) eqn:Hm.
  - injection H as <-. reflexivity.
  - bind_inv H. injection H as <-. exists a1. split; [exact Ha1 | ].
    unfold set_add. rewrite Hm. reflexivity.
Qed.

Lemma unique_step_missing_id st (d : dict) :
  dict_lookup "id" d = None ->
  unique_step ctor msg st (VDict d) = raise (BGGError msg).
Proof. unfold unique_step. simpl. intros ->. reflexivity. Qed.

Lemma unique_loop_app l1 l2 st :
  unique_loop ctor msg (l1 ++ l2) st
  = (st1 <- unique_loop ctor msg l1 st;; unique_loop ctor msg l2 st1).
Proof.
  revert st. induction l1 as [ | x l1 IH]; intros st; simpl.
  - reflexivity.
  - destruct (unique_step ctor msg st x) as [e | st1]; simpl; auto.
Qed.

(** The loop stops at the first record without identifier that it
    reaches. *)
Lemma unique_loop_missing_id pre (d : dict) post st st1 :
  unique_loop ctor msg pre st = inr st1 ->
  dict_lookup "id" d = None ->
  unique_loop ctor msg (pre ++ VDict d :: post) st = raise (BGGError msg).
Proof.
  intros Hpre Hd. rewrite unique_loop_app, Hpre.
  cbn [bind unique_loop]. rewrite (unique_step_missing_id _ _ Hd).
  reflexivity.
Qed.

Lemma seen_id_snoc (s : pyset) (x d : dict) (k : key) :
  raw_id x = Some k ->
  negb (seen_id (s ++ [k]) d)
  = negb (same_id x d) && negb (seen_id s d).
Proof.
  intros Hx. unfold seen_id, same_id. rewrite Hx.
  destruct (raw_id d) as [k' | ]; [ | reflexivity].
  unfold set_mem. rewrite existsb_app. simpl. rewrite orb_false_r.
  rewrite negb_orb, andb_comm, (key_eqb_sym k' k). reflexivity.
Qed.

Lemma seen_id_known (s : pyset) (x d : dict) (k : key) :
  raw_id x = Some k -> set_mem k s = true ->
  negb (same_id x d) && negb (seen_id s d) = negb (seen_id s d).
Proof.
  intros Hx Hk. unfold seen_id, same_id. rewrite Hx.
  destruct (raw_id d) as [k' | ]; [ | reflexivity].
  destruct (key_eqb k k') eqn:E; [ | reflexivity].
  apply key_eqb_eq in E. subst. rewrite Hk. reflexivity.
Qed.

Lemma filter_filter {A} (f g : A -> bool) (l : list A) :
  filter f (filter g l) = filter (fun x => g x && f x) l.
Proof.
  induction l as [ | x l IH]; simpl; [reflexivity | ].
  destruct (g x); simpl; [ | exact IH].
  destruct (f x); rewrite IH; reflexivity.
Qed.

(** What a run of the loop adds to the list and to the set: the first
    records by identifier among those whose identifier was not yet in the
    set. *)
Lemma unique_loop_spec l st st' :
  unique_loop ctor msg l st = inr st' ->
  exists ds news,
    l = map VDict ds
    /\ fst st' = fst st ++ news
    /\ Forall2 (fun d w => ctor d = inr w)
               (filter (fun d => negb (seen_id (snd st) d)) (first_by_id ds))
               news
    /\ map Some (snd st')
       = map Some (snd st)
         ++ map raw_id
              (filter (fun d => negb (seen_id (snd st) d)) (first_by_id ds)).
Proof.
  revert st. induction l as [ | x l IH]; intros st; cbn [unique_loop].
  - intros H. injection H as <-. exists [], []. simpl.
    rewrite !app_nil_r. repeat split. constructor.
  - intros H. bind_inv H.
    apply unique_step_inv in Ha. destruct Ha as (d & k & -> & Hd & Hst).
    destruct (IH _ H) as (ds & news & -> & Hfst & Hnew & Hset).
    exists (d :: ds). cbn [first_by_id filter].
    assert (Hseen : seen_id (snd st) d = set_mem k (snd st))
      by (unfold seen_id; rewrite Hd; reflexivity).
    rewrite Hseen.
    destruct (set_mem k (snd st)) eqn:Hm; cbn [negb].
    + subst a. exists news. rewrite filter_filter.
      rewrite (filter_ext _ _ (fun y => seen_id_known _ _ y _ Hd Hm)).
      auto.
    + destruct Hst as (w & Hw & ->). cbn [fst snd] in *.
      rewrite filter_filter.
      rewrite (filter_ext _ _ (fun y => seen_id_snoc (snd st) _ y _ Hd))
        in Hnew, Hset.
      exists (w :: news). split; [reflexivity | ].
      split; [rewrite Hfst, <- app_assoc; reflexivity | ].
      split; [constructor; assumption | ].
      rewrite Hset, map_app, <- app_assoc. cbn [map app]. rewrite Hd.
      reflexivity.
Qed.

Lemma filter_unseen_nil (l : list dict) :
  filter (fun d => negb (seen_id [] d)) l = l.
Proof.
  induction l as [ | y r IHr]; simpl; [reflexivity | ].
  unfold seen_id at 1. destruct (raw_id y); simpl; rewrite IHr;
    reflexivity.
Qed.

Lemma unique_loop_first_by_id l ws seen :
  unique_loop ctor msg l ([], []) = inr (ws, seen) ->
  exists ds,
    l = map VDict ds
    /\ Forall2 (fun d w => ctor d = inr w) (first_by_id ds) ws
    /\ map Some seen = map raw_id (first_by_id ds).
Proof.
  intros H. destruct (unique_loop_spec _ _ _ H)
    as (ds & news & -> & Hfst & Hnew & Hset).
  cbn [fst snd app map] in *. subst news.
  rewrite filter_unseen_nil in *. exists ds. auto.
Qed.
End UniqueFacts.

(** *** The specification [first_by_id] *)

Lemma first_by_id_In (l : list dict) (d : dict) :
  In d (first_by_id l) ->
  exists pre post,
    l = pre ++ d :: post /\ Forall (fun x => same_id x d = false) pre.
Proof.
  revert d. induction l as [ | x l IH]; intros d; simpl.
  - contradiction.
  - intros [<- | Hin].
    + exists [], l. split; [reflexivity | constructor].
    + apply filter_In in Hin. destruct Hin as [Hin Hx].
      destruct (IH _ Hin) as (pre & post & -> & Hpre).
      exists (x :: pre), post. split; [reflexivity | ].
      constructor; [ | exact Hpre].
      destruct (same_id x d); [discriminate | reflexivity].
Qed.

Lemma first_by_id_covers (l : list dict) (d : dict) :
  In d l -> raw_id d <> None ->
  exists d', In d' (first_by_id l) /\ raw_id d' = raw_id d.
Proof.
  induction l as [ | x l IH]; simpl; [contradiction | ].
  intros Hin Hd.
  destruct (same_id x d) eqn:E.
  - exists x. split; [left; reflexivity | ].
    unfold same_id in E.
    destruct (raw_id x) as [a | ]; [ | discriminate].
    destruct (raw_id d) as [b | ]; [ | discriminate].
    apply key_eqb_eq in E. congruence.
  - destruct Hin as [-> | Hin].
    + unfold same_id in E. destruct (raw_id d) as [a | ]; [ | congruence].
      rewrite key_eqb_refl in E. discriminate.
    + destruct (IH Hin Hd) as (d' & Hin' & Hid).
      exists d'. split; [ | exact Hid]. right.
      apply filter_In. split; [exact Hin' | ].
      unfold same_id in *. rewrite Hid.
      destruct (raw_id x), (raw_id d); try reflexivity.
      rewrite E. reflexivity.
Qed.

Lemma first_by_id_NoDup (l : list dict) :
  Forall (fun d => raw_id d <> None) l ->
  NoDup (map raw_id (first_by_id l)).
Proof.
  induction l as [ | x l IH]; intros Hall; simpl.
  - constructor.
  - inversion Hall as [ | ? ? Hx Hl]; subst.
    specialize (IH Hl). constructor.
    + intros Hin. apply in_map_iff in Hin. destruct Hin as (y & Hy & Hin).
      apply filter_In in Hin. destruct Hin as [_ Hs].
      unfold same_id in Hs. rewrite Hy in Hs.
      destruct (raw_id x) as [k | ]; [ | congruence].
      rewrite key_eqb_refl in Hs. discriminate.
    + clear - IH. induction (first_by_id l) as [ | y r IHr]; simpl.
      * constructor.
      * inversion IH as [ | ? ? Hy Hr]; subst.
        destruct (negb (same_id x y)); [ | auto].
        simpl. constructor; [ | auto].
        intros Hin. apply Hy. apply in_map_iff in Hin.
        destruct Hin as (z & Hz & Hin). apply filter_In in Hin.
        apply in_map_iff. exists z. tauto.
Qed.

(** A thing wraps the record it is made from: the deduplicated things are
    the first records themselves. *)
Lemma deduplicated_things (input : value) (out : list Thing) :
  deduplicated Thing_init input out ->
  exists ds,
    py_iter input = inr (map VDict ds)
    /\ map Thing_data out = first_by_id ds.
Proof.
  intros (ds & Hit & Hall). exists ds. split; [exact Hit | ].
  induction Hall as [ | d w ds' ws Hw _ IH]; simpl.
  - reflexivity.
  - rewrite (Thing_init_data _ _ Hw), IH. reflexivity.
Qed.

(** ** Construction of games *)

Section GameFacts.
Variable fix_url : value -> result value.
Variable fix_unsigned_negative : value -> result value.

Lemma BaseGame_init_inv (data : dict) (b : BaseGame) :
  BaseGame_init fix_url fix_unsigned_negative data = inr b ->
  exists st,
    dict_lookup "stats" data = Some st
    /\ BoardGameStats_init st = inr (_stats b)
    /\ (l <- py_iter (dict_get "versions" (VList []) data);;
        unique_loop (BoardGameVersion_init fix_url) "invalid version data"
                    l ([], []))
       = inr (_versions b, _versions_set b)
    /\ game_data b = data.
Proof.
  unfold BaseGame_init. intros H.
  bind_inv H. bind_inv H.
  destruct (dict_lookup "stats" data) as [st | ]; [ | discriminate].
  bind_inv H. bind_inv H. bind_inv H. bind_inv H. bind_inv H.
  injection H as <-. cbn.
  exists st. rewrite Ha3. cbn. rewrite Ha4. destruct a4.
  rewrite (Thing_init_data _ _ Ha5). auto.
Qed.

Lemma BoardGame_init_inv (data : dict) (g : BoardGame) :
  BoardGame_init fix_url fix_unsigned_negative data = inr g ->
  load_expansions data = inr (_expansions g, _expansions_set g)
  /\ load_expands data = inr (_expands g, _expands_set g)
  /\ load_videos data = inr (_videos g, _videos_ids g)
  /\ BaseGame_init fix_url fix_unsigned_negative data = inr (base g).
Proof.
  unfold BoardGame_init, BoardGame_fields. intros H.
  bind_inv H. bind_inv Ha. bind_inv Ha. bind_inv Ha. bind_inv Ha.
  bind_inv Ha. bind_inv Ha. bind_inv Ha. injection Ha as <-.
  bind_inv H. injection H as <-. cbn.
  destruct a0, a1, a2. auto.
Qed.

Lemma load_deduplicated {W} (ctor : dict -> result W) (msg : string)
    (input : value) (ws : list W) (seen : pyset) :
  (l <- py_iter input;; unique_loop ctor msg l ([], [])) = inr (ws, seen) ->
  deduplicated ctor input ws.
Proof.
  intros H. bind_inv H.
  destruct (unique_loop_first_by_id _ _ _ _ _ _ H) as (ds & -> & Hall & _).
  exists ds. auto.
Qed.
End GameFacts.

(** *** Identifiers as integers

    The sets compare the raw values of [id].  When these are integers, the
    things of a deduplicated list have pairwise distinct identifiers; two
    texts of the same integer, such as "1" and "01", are distinct members of
    the set. *)

Lemma unique_loop_ids {W} (ctor : dict -> result W) (msg : string)
    (ds : list dict) st st' :
  unique_loop ctor msg (map VDict ds) st = inr st' ->
  Forall (fun d => raw_id d <> None) ds.
Proof.
  revert st. induction ds as [ | d ds IH]; intros st; cbn [map unique_loop].
  - constructor.
  - intros H. bind_inv H.
    apply unique_step_inv in Ha. destruct Ha as (d' & k & E & Hd & _).
    injection E as <-. constructor; [congruence | ]. eapply IH, H.
Qed.

Lemma load_things_integer_ids_distinct (msg : string) (input : value)
    (ws : list Thing) (seen : pyset) :
  (l <- py_iter input;; unique_loop Thing_init msg l ([], []))
  = inr (ws, seen) ->
  (forall t, In t ws ->
             exists z, dict_lookup "id" (Thing_data t) = Some (VInt z)) ->
  NoDup (map Thing_id ws).
Proof.
  intros H Hint. bind_inv H.
  destruct (unique_loop_first_by_id _ _ _ _ _ _ H) as (ds & -> & Hall & _).
  pose proof (first_by_id_NoDup _ (unique_loop_ids _ _ _ _ _ H)) as Hnd.
  assert (E : map raw_id (first_by_id ds)
              = map (fun z => Some (KInt z)) (map Thing_id ws)).
  { clear - Hall Hint.
    induction Hall as [ | d w ds' ws' Hw _ IH]; simpl; [reflexivity | ].
    rewrite IH by (intros t Ht; apply Hint; right; exact Ht).
    f_equal.
    destruct (Hint w (or_introl eq_refl)) as (z & Hz).
    rewrite (Thing_init_data _ _ Hw) in Hz.
    destruct (Thing_init_id _ _ Hw) as (i & Hi & Hzi).
    rewrite Hz in Hi. injection Hi as <-. simpl in Hzi.
    injection Hzi as <-. unfold raw_id. rewrite Hz. reflexivity. }
  rewrite E in Hnd. apply NoDup_map_inv in Hnd. exact Hnd.
Qed.

Lemma game_integer_ids_distinct
    (fix_url fix_unsigned_negative : value -> result value)
    (data : dict) (g : BoardGame) :
  BoardGame_init fix_url fix_unsigned_negative data = inr g ->
  (forall t, In t (expansions g) ->
             exists z, dict_lookup "id" (Thing_data t) = Some (VInt z)) ->
  NoDup (map Thing_id (expansions g)).
Proof.
  intros H. destruct (BoardGame_init_inv _ _ _ _ H) as (He & _).
  eapply load_things_integer_ids_distinct, He.
Qed.

Lemma texts_of_one_integer_are_distinct_ids :
  exists g,
    BoardGame_init identity_url identity_url
      (game_with "expansions"
         [VDict [("id", VStr "1"); ("name", VStr "a")];
          VDict [("id", VStr "01"); ("name", VStr "b")]])
    = inr g
    /\ map Thing_id (expansions g) = [1; 1].
Proof. eexists. split; reflexivity. Qed.

(** In every constructed game the lists of expansions, expanded games,
    videos and versions hold one object per distinct raw identifier of the
    input list, made from the first record with that identifier, in the order
    of first occurrence. *)
Lemma game_lists_deduplicated :
  (forall (fix_url fix_unsigned_negative : value -> result value)
          (data : dict) (g : BoardGame),
      BoardGame_init fix_url fix_unsigned_negative data = inr g ->
      deduplicated Thing_init (dict_get "expansions" (VList []) data)
                   (expansions g)
      /\ deduplicated Thing_init (dict_get "expands" (VList []) data)
                      (expands g)
      /\ deduplicated BoardGameVideo_init (dict_get "videos" (VList []) data)
                      (videos g)
      /\ deduplicated (BoardGameVersion_init fix_url)
                      (dict_get "versions" (VList []) data)
                      (versions (base g)))
  /\ (forall fix_url fix_unsigned_negative,
         exists g,
           BoardGame_init fix_url fix_unsigned_negative sample_game = inr g
           /\ map Thing_id (expansions g) = [1; 2]
           /\ map Thing_name (expansions g) = [VStr "a"; VStr "b"]).
Proof.
  split.
  - intros fu fn data g H.
    destruct (BoardGame_init_inv _ _ _ _ H) as (He & Hx & Hv & Hb).
    destruct (BaseGame_init_inv _ _ _ _ Hb) as (st & _ & _ & Hvs & _).
    unfold expansions, expands, videos, versions.
    repeat split; eapply load_deduplicated; eassumption.
  - intros fu fn. eexists. split; [reflexivity | ]. split; reflexivity.
Qed.

(** C8: while a game is constructed, the first record without [id] that the
    loop over the expansions reaches stops construction with the validation
    error "invalid expansion data"; likewise "invalid expanded game data" for
    the expanded games, once the expansions are loaded, and "invalid video
    data" for the videos, once both are loaded. *)
Theorem game_record_without_id_is_invalid
    (fix_url fix_unsigned_negative : value -> result value)
    (data : dict) (pre : list value) (d : dict) (post : list value) :
  dict_lookup "id" d = None ->
  (py_iter (dict_get "expansions" (VList []) data)
   = inr (pre ++ VDict d :: post) ->
   succeeds (unique_loop Thing_init "invalid expansion data" pre ([], []))
   = true ->
   BoardGame_init fix_url fix_unsigned_negative data
   = raise (BGGError "invalid expansion data"))
  /\ (succeeds (load_expansions data) = true ->
      py_iter (dict_get "expands" (VList []) data)
      = inr (pre ++ VDict d :: post) ->
      succeeds (unique_loop Thing_init "invalid expanded game data" pre
                            ([], []))
      = true ->
      BoardGame_init fix_url fix_unsigned_negative data
      = raise (BGGError "invalid expanded game data"))
  /\ (succeeds (load_expansions data) = true ->
      succeeds (load_expands data) = true ->
      py_iter (dict_get "videos" (VList []) data)
      = inr (pre ++ VDict d :: post) ->
      succeeds (unique_loop BoardGameVideo_init "invalid video data" pre
                            ([], []))
      = true ->
      BoardGame_init fix_url fix_unsigned_negative data
      = raise (BGGError "invalid video data")).
Proof.
  intros Hd. unfold BoardGame_init, BoardGame_fields.
  split; [ | split].
  - intros Hit Hpre.
    destruct (unique_loop _ _ pre _) as [e | st1] eqn:E; [discriminate | ].
    unfold load_expansions. rewrite Hit. cbn [bind].
    rewrite (unique_loop_missing_id _ _ _ _ _ _ _ _ E Hd). reflexivity.
  - intros He Hit Hpre.
    destruct (load_expansions data) as [e | exps]; [discriminate | ].
    destruct (unique_loop _ _ pre _) as [e | st1] eqn:E; [discriminate | ].
    unfold load_expands. rewrite Hit. cbn [bind].
    rewrite (unique_loop_missing_id _ _ _ _ _ _ _ _ E Hd). reflexivity.
  - intros He Hx Hit Hpre.
    destruct (load_expansions data) as [e | exps]; [discriminate | ].
    destruct (load_expands data) as [e | exps']; [discriminate | ].
    destruct (unique_loop _ _ pre _) as [e | st1] eqn:E; [discriminate | ].
    unfold load_videos. rewrite Hit. cbn [bind].
    rewrite (unique_loop_missing_id _ _ _ _ _ _ _ _ E Hd). reflexivity.
Qed.

Lemma game_record_without_id_is_invalid_witness :
  BoardGame_init identity_url identity_url
    (game_with "expansions"
       [VDict (thing_record 1 "a"); VDict record_without_id;
        VDict (thing_record 2 "b")])
  = raise (BGGError "invalid expansion data")
  /\ BoardGame_init identity_url identity_url
       (game_with "expands" [VDict record_without_id])
     = raise (BGGError "invalid expanded game data")
  /\ BoardGame_init identity_url identity_url
       (game_with "videos"
          [VDict (video_record 5 "v" (VInt 7)); VDict record_without_id])
     = raise (BGGError "invalid video data").
Proof.
  split; [ | split].
  - apply (proj1 (game_record_without_id_is_invalid
                    identity_url identity_url
                    (game_with "expansions"
                       [VDict (thing_record 1 "a"); VDict record_without_id;
                        VDict (thing_record 2 "b")])
                    [VDict (thing_record 1 "a")] record_without_id
                    [VDict (thing_record 2 "b")] eq_refl));
      reflexivity.
  - apply (proj1 (proj2 (game_record_without_id_is_invalid
                           identity_url identity_url
                           (game_with "expands" [VDict record_without_id])
                           [] record_without_id [] eq_refl)));
      reflexivity.
  - apply (proj2 (proj2 (game_record_without_id_is_invalid
                           identity_url identity_url
                           (game_with "videos"
                              [VDict (video_record 5 "v" (VInt 7));
                               VDict record_without_id])
                           [VDict (video_record 5 "v" (VInt 7))]
                           record_without_id [] eq_refl)));
      reflexivity.
Defined.

(** C3, as amended: a mapping without [stats] never yields a game.  The
    constructor of the base game raises the validation error "invalid data"
    once the thumbnail and image URLs are fixed, and the constructor of the
    game reaches it once its own attributes (expansions, expanded games,
    videos, comments, polls) are loaded; an error raised by one of these
    earlier steps is the one that construction raises. *)
Theorem game_without_stats_is_invalid
    (fix_url fix_unsigned_negative : value -> result value) (data : dict) :
  dict_lookup "stats" data = None ->
  BaseGame_init fix_url fix_unsigned_negative data
  = (_ <- fixed_url_of fix_url "thumbnail" data;;
     _ <- fixed_url_of fix_url "image" data;;
     raise (BGGError "invalid data"))
  /\ CollectionBoardGame_init fix_url fix_unsigned_negative data
     = BaseGame_init fix_url fix_unsigned_negative data
  /\ BoardGame_init fix_url fix_unsigned_negative data
     = (_ <- BoardGame_fields data;;
        _ <- fixed_url_of fix_url "thumbnail" data;;
        _ <- fixed_url_of fix_url "image" data;;
        raise (BGGError "invalid data"))
  /\ succeeds (BaseGame_init fix_url fix_unsigned_negative data) = false
  /\ succeeds (BoardGame_init fix_url fix_unsigned_negative data) = false.
Proof.
  intros Hs.
  assert (Hb : BaseGame_init fix_url fix_unsigned_negative data
               = (_ <- fixed_url_of fix_url "thumbnail" data;;
                  _ <- fixed_url_of fix_url "image" data;;
                  raise (BGGError "invalid data"))).
  { unfold BaseGame_init. rewrite Hs. reflexivity. }
  assert (Hg : BoardGame_init fix_url fix_unsigned_negative data
               = (_ <- BoardGame_fields data;;
                  _ <- fixed_url_of fix_url "thumbnail" data;;
                  _ <- fixed_url_of fix_url "image" data;;
                  raise (BGGError "invalid data"))).
  { unfold BoardGame_init. rewrite Hb.
    destruct (BoardGame_fields data) as [e | f]; cbn [bind]; [reflexivity | ].
    destruct (fixed_url_of fix_url "thumbnail" data); cbn [bind];
      [reflexivity | ].
    destruct (fixed_url_of fix_url "image" data); reflexivity. }
  repeat split; try assumption.
  - rewrite Hb.
    destruct (fixed_url_of fix_url "thumbnail" data); cbn [bind];
      [reflexivity | ].
    destruct (fixed_url_of fix_url "image" data); reflexivity.
  - rewrite Hg.
    destruct (BoardGame_fields data) as [e | f]; cbn [bind]; [reflexivity | ].
    destruct (fixed_url_of fix_url "thumbnail" data); cbn [bind];
      [reflexivity | ].
    destruct (fixed_url_of fix_url "image" data); reflexivity.
Qed.

Lemma game_without_stats_is_invalid_witness :
  BoardGame_init identity_url identity_url game_without_stats
  = raise (BGGError "invalid data")
  /\ BaseGame_init identity_url identity_url game_without_stats
     = raise (BGGError "invalid data").
Proof.
  destruct (game_without_stats_is_invalid identity_url identity_url
              game_without_stats eq_refl) as (Hb & _ & Hg & _).
  split; [rewrite Hg | rewrite Hb]; reflexivity.
Defined.

(** C3 as stated fails: a mapping without [stats] whose poll of the number of
    players has no [results] makes the constructor of the game raise a
    KeyError, before the statistics are looked for. *)
Lemma game_without_stats_other_error :
  dict_lookup "stats" game_without_stats_bad_poll = None
  /\ BoardGame_init identity_url identity_url game_without_stats_bad_poll
     = raise KeyError.
Proof. split; reflexivity. Qed.

(** ** The format of timestamps *)

Lemma digit_cases (a : Z) :
  0 <= a <= 9 ->
  a = 0 \/ a = 1 \/ a = 2 \/ a = 3 \/ a = 4 \/ a = 5 \/ a = 6 \/ a = 7
  \/ a = 8 \/ a = 9.
Proof. lia. Qed.

Ltac each_digit a H :=
  destruct (digit_cases a H)
    as [-> | [-> | [-> | [-> | [-> | [-> | [-> | [-> | [-> | ->]]]]]]]]].

Lemma is_digit_digit_char (a : Z) :
  0 <= a <= 9 -> is_digit (digit_char a) = true.
Proof. intros H. each_digit a H; reflexivity. Qed.

Lemma digit_val_digit_char (a : Z) :
  0 <= a <= 9 -> digit_val (digit_char a) = a.
Proof. intros H. each_digit a H; reflexivity. Qed.

Lemma two_digits_split (n : Z) :
  0 <= n <= 99 ->
  0 <= n / 10 <= 9 /\ 0 <= n mod 10 <= 9 /\ n = 10 * (n / 10) + n mod 10.
Proof.
  intros H. pose proof (Z.div_mod n 10 ltac:(lia)).
  pose proof (Z.mod_pos_bound n 10 ltac:(lia)).
  assert (0 <= n / 10) by (apply Z.div_pos; lia).
  assert (n / 10 < 10) by (apply Z.div_lt_upper_bound; lia).
  lia.
Qed.

Lemma field_value_two_digits (n : Z) :
  0 <= n <= 99 -> field_value (two_digits n) = n.
Proof.
  intros H. destruct (two_digits_split n H) as (Ha & Hb & Hn).
  unfold field_value, two_digits. cbn [fold_left].
  rewrite !is_digit_digit_char, !digit_val_digit_char by assumption. lia.
Qed.

Lemma field_value_four_digits (n : Z) :
  0 <= n <= 9999 -> field_value (four_digits n) = n.
Proof.
  intros H.
  pose proof (Z.div_mod n 10 ltac:(lia)).
  pose proof (Z.mod_pos_bound n 10 ltac:(lia)).
  pose proof (Z.div_mod (n / 10) 10 ltac:(lia)).
  pose proof (Z.mod_pos_bound (n / 10) 10 ltac:(lia)).
  pose proof (Z.div_mod (n / 100) 10 ltac:(lia)).
  pose proof (Z.mod_pos_bound (n / 100) 10 ltac:(lia)).
  assert (E1 : n / 10 / 10 = n / 100) by (rewrite Z.div_div by lia; reflexivity).
  assert (E2 : n / 100 / 10 = n / 1000) by (rewrite Z.div_div by lia; reflexivity).
  assert (0 <= n / 1000) by (apply Z.div_pos; lia).
  assert (n / 1000 < 10) by (apply Z.div_lt_upper_bound; lia).
  unfold field_value, four_digits. cbn [fold_left].
  rewrite !is_digit_digit_char, !digit_val_digit_char by lia. lia.
Qed.

Lemma match_lit (c : ascii) (r : list item) (s : list ascii) :
  match_items (Lit c :: r) (c :: s) = match_items r s.
Proof. cbn [match_items]. rewrite Ascii.eqb_refl. reflexivity. Qed.

Lemma match_year (n : Z) r s caps rest :
  0 <= n <= 9999 ->
  match_items r s = Some (caps, rest) ->
  match_items (re_Y :: r) (four_digits n ++ s)
  = Some (four_digits n :: caps, rest).
Proof.
  intros H Hr.
  pose proof (Z.mod_pos_bound n 10 ltac:(lia)).
  pose proof (Z.mod_pos_bound (n / 10) 10 ltac:(lia)).
  pose proof (Z.mod_pos_bound (n / 100) 10 ltac:(lia)).
  assert (0 <= n / 1000) by (apply Z.div_pos; lia).
  assert (n / 1000 < 10) by (apply Z.div_lt_upper_bound; lia).
  unfold re_Y, four_digits. cbn [match_items app match_classes].
  rewrite !is_digit_digit_char by lia. rewrite Hr. reflexivity.
Qed.

(** A field of two digits is matched by an alternative of two characters,
    which comes before the alternatives of one character. *)
Ltac match_two_digits n H Hr :=
  let Ha := fresh "Ha" in
  let Hb := fresh "Hb" in
  let Hn := fresh "Hn" in
  destruct (two_digits_split n ltac:(lia)) as (Ha & Hb & Hn);
  unfold two_digits;
  generalize dependent (n mod 10); generalize dependent (n / 10);
  intros a Ha b Hb Hn;
  each_digit a Ha; each_digit b Hb; try lia;
  unfold re_m, re_d, re_H, re_M, re_S; cbn [match_items app];
  cbv -[match_items]; rewrite Hr; reflexivity.

Lemma match_month (n : Z) r s caps rest :
  1 <= n <= 12 ->
  match_items r s = Some (caps, rest) ->
  match_items (re_m :: r) (two_digits n ++ s)
  = Some (two_digits n :: caps, rest).
Proof. intros H Hr. match_two_digits n H Hr. Qed.

Lemma match_day (n : Z) r s caps rest :
  1 <= n <= 31 ->
  match_items r s = Some (caps, rest) ->
  match_items (re_d :: r) (two_digits n ++ s)
  = Some (two_digits n :: caps, rest).
Proof. intros H Hr. match_two_digits n H Hr. Qed.

Lemma match_hour (n : Z) r s caps rest :
  0 <= n <= 23 ->
  match_items r s = Some (caps, rest) ->
  match_items (re_H :: r) (two_digits n ++ s)
  = Some (two_digits n :: caps, rest).
Proof. intros H Hr. match_two_digits n H Hr. Qed.

Lemma match_minute (n : Z) r s caps rest :
  0 <= n <= 59 ->
  match_items r s = Some (caps, rest) ->
  match_items (re_M :: r) (two_digits n ++ s)
  = Some (two_digits n :: caps, rest).
Proof. intros H Hr. match_two_digits n H Hr. Qed.

Lemma match_second (n : Z) r s caps rest :
  0 <= n <= 59 ->
  match_items r s = Some (caps, rest) ->
  match_items (re_S :: r) (two_digits n ++ s)
  = Some (two_digits n :: caps, rest).
Proof. intros H Hr. match_two_digits n H Hr. Qed.

Lemma days_in_month_le_31 (y m : Z) : days_in_month y m <= 31.
Proof.
  unfold days_in_month.
  destruct (m =? 2); [destruct (is_leap y); lia | ].
  destruct ((m =? 4) || (m =? 6) || (m =? 9) || (m =? 11)); lia.
Qed.

(** Parsing the text of a valid timestamp gives the timestamp back. *)
Lemma strptime_isoformat (dt : datetime) :
  valid_datetime dt -> strptime_chars (isoformat dt) = Some dt.
Proof.
  destruct dt as [y m d hh mm ss]. unfold valid_datetime; simpl.
  intros (Hy & Hm & Hd & Hh & Hmm & Hs).
  pose proof (days_in_month_le_31 y m) as H31.
  unfold strptime_chars, post_date_format, isoformat; simpl dt_year;
    simpl dt_month; simpl dt_day; simpl dt_hour; simpl dt_minute;
    simpl dt_second.
  assert (E : match_items
                [re_Y; Lit "-"; re_m; Lit "-"; re_d; Lit "T"; re_H; Lit ":";
                 re_M; Lit ":"; re_S]
                (four_digits y ++ "-"%char :: two_digits m
                 ++ "-"%char :: two_digits d ++ "T"%char :: two_digits hh
                 ++ ":"%char :: two_digits mm ++ ":"%char :: two_digits ss)
              = Some ([four_digits y; two_digits m; two_digits d;
                       two_digits hh; two_digits mm; two_digits ss], [])).
  { apply match_year; [lia | ]. rewrite match_lit.
    apply match_month; [lia | ]. rewrite match_lit.
    apply match_day; [lia | ]. rewrite match_lit.
    apply match_hour; [lia | ]. rewrite match_lit.
    apply match_minute; [lia | ]. rewrite match_lit.
    rewrite <- (app_nil_r (two_digits ss)).
    apply match_second; [lia | ]. reflexivity. }
  rewrite E.
  rewrite field_value_four_digits, !field_value_two_digits by lia.
  replace (1 <=? y) with true by (symmetry; apply Z.leb_le; lia).
  replace (d <=? days_in_month y m) with true
    by (symmetry; apply Z.leb_le; lia).
  replace (ss <=? 59) with true by (symmetry; apply Z.leb_le; lia).
  reflexivity.
Qed.

(** ** Videos *)

Lemma chars_of_chars (l : list ascii) : chars (of_chars l) = l.
Proof. induction l as [ | c l IH]; simpl; congruence. Qed.

Lemma parse_post_date_string (s : string) :
  parse_post_date (VStr s) = parsed_post_date s.
Proof.
  unfold parse_post_date, parsed_post_date. simpl.
  rewrite chars_of_chars.
  destruct (strptime_chars _); reflexivity.
Qed.

Lemma video_kw_lookup_other (k : string) (data : dict) :
  k <> "post_date" -> dict_lookup k (video_kw data) = dict_lookup k data.
Proof.
  intros Hk. unfold video_kw.
  destruct (dict_lookup "post_date" data) as [[ | | | | | ] | ];
    try reflexivity; apply dict_lookup_set_other; exact Hk.
Qed.

Lemma BoardGameVideo_init_eq (data : dict) :
  BoardGameVideo_init data
  = match dict_lookup "uploader_id" data with
    | None => raise KeyError
    | Some u =>
        z <- py_int u;;
        Thing_init (dict_set "uploader_id" (VInt z) (video_kw data))
    end.
Proof.
  unfold BoardGameVideo_init. simpl.
  rewrite video_kw_lookup_other by discriminate.
  destruct (dict_lookup "uploader_id" data); reflexivity.
Qed.

Lemma BoardGameVideo_init_inv (data : dict) (v : BoardGameVideo) :
  BoardGameVideo_init data = inr v ->
  exists u z,
    dict_lookup "uploader_id" data = Some u /\ py_int u = inr z
    /\ Thing_data v = dict_set "uploader_id" (VInt z) (video_kw data).
Proof.
  rewrite BoardGameVideo_init_eq.
  destruct (dict_lookup "uploader_id" data) as [u | ]; [ | discriminate].
  intros H. bind_inv H. exists u, a. repeat split; auto.
  apply Thing_init_data, H.
Qed.

Lemma BoardGameVideo_init_ok (data : dict) (u i : value) (z zi : Z) :
  dict_lookup "uploader_id" data = Some u -> py_int u = inr z ->
  dict_lookup "id" data = Some i -> py_int i = inr zi ->
  exists v,
    BoardGameVideo_init data = inr v
    /\ Thing_id v = zi
    /\ Thing_data v = dict_set "uploader_id" (VInt z) (video_kw data).
Proof.
  intros Hu Hz Hi Hzi. rewrite BoardGameVideo_init_eq, Hu, Hz. cbn [bind].
  eexists. split.
  - apply Thing_init_ok with (i := i); [ | exact Hzi].
    rewrite dict_lookup_set_other by discriminate.
    rewrite video_kw_lookup_other by discriminate. exact Hi.
  - split; reflexivity.
Qed.

(** A timestamp followed by a suffix of six characters, such as an offset
    from UTC, is parsed to that timestamp. *)
Lemma parsed_post_date_isoformat (dt : datetime) (suffix : list ascii) :
  valid_datetime dt -> List.length suffix = 6%nat ->
  parsed_post_date (of_chars (isoformat dt ++ suffix)) = VDatetime dt.
Proof.
  intros Hdt Hlen. unfold parsed_post_date.
  rewrite chars_of_chars, length_app, Hlen, Nat.add_sub.
  rewrite firstn_app, firstn_all, Nat.sub_diag, firstn_0, app_nil_r.
  rewrite (strptime_isoformat _ Hdt). reflexivity.
Qed.

(** C7: for every video mapping whose [post_date] is a string, the
    constructor drops the last six characters and parses the rest with the
    pattern YYYY-MM-DDTHH:MM:SS; the step never raises: when the text does
    not parse the field becomes null.  A constructed video exposes the parsed
    date, and whether construction succeeds does not depend on the text: it
    does whenever [id] and [uploader_id] convert to integers.  The text of
    a valid timestamp followed by six characters is parsed to that timestamp:
    "2021-05-01T10:00:00-07:00" gives 2021-05-01 10:00:00; and "yesterday"
    gives a video whose date is null. *)
Theorem video_post_date_parsed_or_null :
  (forall (data : dict) (s : string),
      dict_lookup "post_date" data = Some (VStr s) ->
      video_kw data = dict_set "post_date" (parsed_post_date s) data
      /\ (forall v, BoardGameVideo_init data = inr v ->
                    post_date v = parsed_post_date s)
      /\ (forall u z i zi,
             dict_lookup "uploader_id" data = Some u -> py_int u = inr z ->
             dict_lookup "id" data = Some i -> py_int i = inr zi ->
             exists v, BoardGameVideo_init data = inr v
                       /\ post_date v = parsed_post_date s))
  /\ (forall (dt : datetime) (suffix : list ascii),
         valid_datetime dt -> List.length suffix = 6%nat ->
         parsed_post_date (of_chars (isoformat dt ++ suffix)) = VDatetime dt)
  /\ parsed_post_date "2021-05-01T10:00:00-07:00"
     = VDatetime (mk_datetime 2021 5 1 10 0 0)
  /\ (exists v,
         BoardGameVideo_init (video_with_date "2021-05-01T10:00:00-07:00")
         = inr v
         /\ post_date v = VDatetime (mk_datetime 2021 5 1 10 0 0))
  /\ (exists v,
         BoardGameVideo_init (video_with_date "yesterday") = inr v
         /\ post_date v = VNone).
Proof.
  split; [ | split; [exact parsed_post_date_isoformat | ];
             split; [reflexivity | split;
                     (eexists; split; reflexivity)]].
  intros data s Hs.
  assert (Hkw : video_kw data = dict_set "post_date" (parsed_post_date s) data).
  { unfold video_kw. rewrite Hs, parse_post_date_string. reflexivity. }
  assert (Hpd : forall v, BoardGameVideo_init data = inr v ->
                          post_date v = parsed_post_date s).
  { intros v Hv.
    destruct (BoardGameVideo_init_inv _ _ Hv) as (u & z & _ & _ & Hd).
    unfold post_date, dict_get. rewrite Hd.
    rewrite dict_lookup_set_other by discriminate.
    rewrite Hkw, dict_lookup_set_same. reflexivity. }
  split; [exact Hkw | ]. split; [exact Hpd | ].
  intros u z i zi Hu Hz Hi Hzi.
  destruct (BoardGameVideo_init_ok _ _ _ _ _ Hu Hz Hi Hzi) as (v & Hv & _).
  exists v. split; [exact Hv | apply Hpd, Hv].
Qed.

Lemma video_post_date_parsed_or_null_witness :
  video_kw (video_with_date "2021-13-01T10:00:00-07:00")
  = dict_set "post_date" VNone (video_with_date "2021-13-01T10:00:00-07:00").
Proof.
  exact (proj1 (proj1 video_post_date_parsed_or_null
                      (video_with_date "2021-13-01T10:00:00-07:00")
                      "2021-13-01T10:00:00-07:00" eq_refl)).
Defined.

(** C9, as amended: a video cannot be constructed from a mapping whose
    [uploader_id] is absent or does not convert to an integer.  The
    constructor of the video raises a KeyError when it is absent and the error
    of the conversion (a ValueError or a TypeError) when it does not convert;
    inside the constructor of a game the KeyError becomes the validation error
    "invalid video data" and the error of the conversion is passed on as it
    is.  A constructed video exposes [uploader_id] as the integer, and
    construction succeeds when [id] converts too. *)
Theorem video_uploader_id_required (data : dict) :
  (dict_lookup "uploader_id" data = None ->
   BoardGameVideo_init data = raise KeyError
   /\ forall st k, raw_id data = Some k -> set_mem k (snd st) = false ->
        unique_step BoardGameVideo_init "invalid video data" st (VDict data)
        = raise (BGGError "invalid video data"))
  /\ (forall u e,
         dict_lookup "uploader_id" data = Some u -> py_int u = inl e ->
         BoardGameVideo_init data = raise e
         /\ (e = ValueError \/ e = TypeError)
         /\ forall st k, raw_id data = Some k -> set_mem k (snd st) = false ->
              unique_step BoardGameVideo_init "invalid video data" st
                          (VDict data)
              = raise e)
  /\ (forall v, BoardGameVideo_init data = inr v ->
        exists u z,
          dict_lookup "uploader_id" data = Some u /\ py_int u = inr z
          /\ uploader_id v = VInt z)
  /\ (forall u z i zi,
         dict_lookup "uploader_id" data = Some u -> py_int u = inr z ->
         dict_lookup "id" data = Some i -> py_int i = inr zi ->
         exists v, BoardGameVideo_init data = inr v
                   /\ uploader_id v = VInt z).
Proof.
  assert (Hstep : forall st k e,
             raw_id data = Some k -> set_mem k (snd st) = false ->
             BoardGameVideo_init data = raise e ->
             unique_step BoardGameVideo_init "invalid video data" st
                         (VDict data)
             = except_KeyError "invalid video data" (raise e)).
  { intros st k e Hk Hm He. unfold unique_step.
    apply raw_id_Some in Hk. destruct Hk as (i & Hi & Hk).
    simpl. rewrite Hi. cbn [bind ok]. rewrite Hk. cbn [bind].
    rewrite Hm, He. reflexivity. }
  split; [ | split; [ | split]].
  - intros Hu.
    assert (He : BoardGameVideo_init data = raise KeyError)
      by (rewrite BoardGameVideo_init_eq, Hu; reflexivity).
    split; [exact He | ]. intros st k Hk Hm.
    rewrite (Hstep _ _ _ Hk Hm He). reflexivity.
  - intros u e Hu He.
    assert (Hv : BoardGameVideo_init data = raise e)
      by (rewrite BoardGameVideo_init_eq, Hu, He; reflexivity).
    split; [exact Hv | ].
    pose proof (py_int_error _ _ He) as Hcases.
    split; [exact Hcases | ]. intros st k Hk Hm.
    rewrite (Hstep _ _ _ Hk Hm Hv).
    destruct Hcases as [-> | ->]; reflexivity.
  - intros v Hv.
    destruct (BoardGameVideo_init_inv _ _ Hv) as (u & z & Hu & Hz & Hd).
    exists u, z. repeat split; auto.
    unfold uploader_id, dict_get. rewrite Hd, dict_lookup_set_same.
    reflexivity.
  - intros u z i zi Hu Hz Hi Hzi.
    destruct (BoardGameVideo_init_ok _ _ _ _ _ Hu Hz Hi Hzi)
      as (v & Hv & _ & Hd).
    exists v. split; [exact Hv | ].
    unfold uploader_id, dict_get. rewrite Hd, dict_lookup_set_same.
    reflexivity.
Qed.

Lemma video_uploader_id_required_witness :
  BoardGameVideo_init video_without_uploader = raise KeyError
  /\ BoardGameVideo_init (video_record 5 "v" VNone) = raise TypeError
  /\ exists v, BoardGameVideo_init (video_record 5 "v" (VStr "77")) = inr v
               /\ uploader_id v = VInt 77.
Proof.
  split; [ | split].
  - exact (proj1 (proj1 (video_uploader_id_required video_without_uploader)
                        eq_refl)).
  - exact (proj1 (proj1 (proj2 (video_uploader_id_required
                                  (video_record 5 "v" VNone)))
                        VNone TypeError eq_refl eq_refl)).
  - exact (proj2 (proj2 (proj2 (video_uploader_id_required
                                  (video_record 5 "v" (VStr "77")))))
                 (VStr "77") 77 (VInt 5) 5 eq_refl eq_refl eq_refl eq_refl).
Defined.

(** C9 as stated fails: without [uploader_id] the constructor of the video
    raises a KeyError, with a text that is not a number a ValueError, and the
    latter also leaves the constructor of a game as it is. *)
Lemma video_uploader_id_other_errors :
  BoardGameVideo_init video_without_uploader = raise KeyError
  /\ BoardGameVideo_init (video_record 5 "v" (VStr "abc")) = raise ValueError
  /\ BoardGame_init identity_url identity_url
       (game_with "videos" [VDict (video_record 5 "v" (VStr "abc"))])
     = raise ValueError.
Proof. repeat split; reflexivity. Qed.

(** ** Mutators *)

Lemma mirrors_mem (seen : pyset) (things : list Thing) (k : key) :
  mirrors seen things ->
  (set_mem k seen = true
   <-> exists t, In t things /\ raw_id (Thing_data t) = Some k).
Proof.
  unfold mirrors. intros H. rewrite set_mem_In. split.
  - intros Hin. apply (in_map Some) in Hin. rewrite H in Hin.
    apply in_map_iff in Hin. destruct Hin as (t & Ht & Hin). exists t. auto.
  - intros (t & Hin & Ht).
    assert (Hk : In (Some k) (map Some seen)).
    { rewrite H, <- Ht. apply in_map_iff. exists t. auto. }
    apply in_map_iff in Hk. destruct Hk as (k' & E & Hk).
    injection E as ->. exact Hk.
Qed.

Lemma load_things_mirrors (msg : string) (input : value)
    (ws : list Thing) (seen : pyset) :
  (l <- py_iter input;; unique_loop Thing_init msg l ([], []))
  = inr (ws, seen) ->
  mirrors seen ws.
Proof.
  intros H. bind_inv H.
  destruct (unique_loop_first_by_id _ _ _ _ _ _ H) as (ds & _ & Hall & Hset).
  unfold mirrors. rewrite Hset. clear - Hall.
  induction Hall as [ | d w ds' ws' Hw _ IH]; simpl.
  - reflexivity.
  - rewrite (Thing_init_data _ _ Hw), IH. reflexivity.
Qed.

(** A constructed game has its sets in step with its lists. *)
Lemma BoardGame_init_mirrors
    (fix_url fix_unsigned_negative : value -> result value)
    (data : dict) (g : BoardGame) :
  BoardGame_init fix_url fix_unsigned_negative data = inr g ->
  mirrors (_expansions_set g) (expansions g)
  /\ mirrors (_expands_set g) (expands g).
Proof.
  intros H. destruct (BoardGame_init_inv _ _ _ _ H) as (He & Hx & _ & _).
  split; eapply load_things_mirrors; eassumption.
Qed.

Lemma set_add_new (k : key) (s : pyset) :
  set_mem k s = false -> set_add k s = s ++ [k].
Proof. unfold set_add. intros ->. reflexivity. Qed.

Ltac game_simpl :=
  cbn [_expansions _expansions_set _expands _expands_set _videos _videos_ids
       _comments _poll_results_numplayers _poll_results_playerage
       _poll_results_langdeps base with_data with_expansions with_expands].

Lemma add_expansion_known (g : BoardGame) (data : dict) (k : key) :
  raw_id data = Some k -> set_mem k (_expansions_set g) = true ->
  add_expansion g data = (g, ok tt).
Proof.
  intros Hk Hm. apply raw_id_Some in Hk. destruct Hk as (i & Hi & Hk).
  unfold add_expansion, add_reference. rewrite Hi, Hk, Hm. reflexivity.
Qed.

Lemma add_expanded_game_known (g : BoardGame) (data : dict) (k : key) :
  raw_id data = Some k -> set_mem k (_expands_set g) = true ->
  add_expanded_game g data = (g, ok tt).
Proof.
  intros Hk Hm. apply raw_id_Some in Hk. destruct Hk as (i & Hi & Hk).
  unfold add_expanded_game, add_reference. rewrite Hi, Hk, Hm. reflexivity.
Qed.

Lemma add_expansion_new (g : BoardGame) (data : dict) (i : value) (k : key)
    (z : Z) (raw : list value) :
  dict_lookup "id" data = Some i -> py_hash i = inr k -> py_int i = inr z ->
  set_mem k (_expansions_set g) = false ->
  dict_lookup "expansions" (self_data g) = Some (VList raw) ->
  add_expansion g data
  = (with_new_expansion raw data k
       (mk_Thing z (dict_get "name" VNone data) data) g, ok tt).
Proof.
  intros Hi Hk Hz Hm Hraw.
  unfold add_expansion, add_reference.
  rewrite Hi, Hk, Hm, Hraw. cbn [py_append ok].
  rewrite (Thing_init_ok _ _ _ Hi Hz).
  unfold with_new_expansion. game_simpl.
  rewrite (set_add_new _ _ Hm). reflexivity.
Qed.

Lemma add_expanded_game_new (g : BoardGame) (data : dict) (i : value)
    (k : key) (z : Z) (raw : list value) :
  dict_lookup "id" data = Some i -> py_hash i = inr k -> py_int i = inr z ->
  set_mem k (_expands_set g) = false ->
  dict_lookup "expands" (self_data g) = Some (VList raw) ->
  add_expanded_game g data
  = (with_new_expanded_game raw data k
       (mk_Thing z (dict_get "name" VNone data) data) g, ok tt).
Proof.
  intros Hi Hk Hz Hm Hraw.
  unfold add_expanded_game, add_reference.
  rewrite Hi, Hk, Hm, Hraw. cbn [py_append ok].
  rewrite (Thing_init_ok _ _ _ Hi Hz).
  unfold with_new_expanded_game. game_simpl.
  rewrite (set_add_new _ _ Hm). reflexivity.
Qed.

(** The handler of [add_expansion] also catches the KeyError of
    [self._data["expansions"]]: on a game constructed from a mapping without
    that key, a valid new record is refused as invalid. *)
Lemma add_expansion_without_backing_list :
  exists g,
    BoardGame_init identity_url identity_url game_without_lists = inr g
    /\ add_expansion g (thing_record 3 "c")
       = (g, raise (BGGError "invalid expansion data"))
    /\ add_expanded_game g (thing_record 3 "c")
       = (g, raise (BGGError "invalid expanded game data")).
Proof. eexists. split; [reflexivity | ]. split; reflexivity. Qed.

(** C5, as amended: for every game whose set of expansion identifiers is in
    step with its list of expansions, as it is after construction, and every
    mapping whose [id] is hashable: when a record with that identifier is
    already among the expansions, [add_expansion] returns and leaves the game
    as it was; when there is none, the [id] converts to an integer and the
    backing mapping of the game holds a list under [expansions], the list of
    expansions grows by exactly one entry, the last one, which wraps the
    mapping and has that identifier. *)
Theorem add_expansion_known_or_new (g : BoardGame) (data : dict) (k : key) :
  mirrors (_expansions_set g) (expansions g) ->
  raw_id data = Some k ->
  ((exists t, In t (expansions g) /\ raw_id (Thing_data t) = Some k) ->
   add_expansion g data = (g, ok tt))
  /\ ((forall t, In t (expansions g) -> raw_id (Thing_data t) <> Some k) ->
      forall raw i z,
        dict_lookup "expansions" (self_data g) = Some (VList raw) ->
        dict_lookup "id" data = Some i -> py_int i = inr z ->
        exists t g',
          add_expansion g data = (g', ok tt)
          /\ expansions g' = expansions g ++ [t]
          /\ List.length (expansions g') = S (List.length (expansions g))
          /\ Thing_id t = z /\ Thing_data t = data
          /\ mirrors (_expansions_set g') (expansions g')).
Proof.
  intros Hmir Hk. split.
  - intros Hin. apply add_expansion_known with (k := k); [exact Hk | ].
    apply (mirrors_mem _ _ k Hmir). exact Hin.
  - intros Hnew raw i z Hraw Hi Hz.
    assert (Hm : set_mem k (_expansions_set g) = false).
    { destruct (set_mem k (_expansions_set g)) eqn:E; [ | reflexivity].
      apply (mirrors_mem _ _ k Hmir) in E. destruct E as (t & Hin & Ht).
      destruct (Hnew t Hin Ht). }
    assert (Hh : py_hash i = inr k).
    { apply raw_id_Some in Hk. destruct Hk as (i' & Hi' & Hh). congruence. }
    eexists. eexists.
    split; [apply (add_expansion_new _ _ _ _ _ _ Hi Hh Hz Hm Hraw) | ].
    unfold with_new_expansion, expansions. game_simpl.
    split; [reflexivity | ].
    split; [rewrite length_app, Nat.add_comm; reflexivity | ].
    split; [reflexivity | ]. split; [reflexivity | ].
    unfold mirrors in *. unfold expansions in Hmir.
    rewrite !map_app, Hmir. cbn. rewrite Hk. reflexivity.
Qed.

Lemma add_expansion_known_or_new_witness :
  exists g,
    BoardGame_init identity_url identity_url sample_game = inr g
    /\ add_expansion g (thing_record 2 "again") = (g, ok tt)
    /\ exists t g',
        add_expansion g (thing_record 3 "c") = (g', ok tt)
        /\ expansions g' = expansions g ++ [t]
        /\ List.length (expansions g') = S (List.length (expansions g))
        /\ Thing_id t = 3 /\ Thing_data t = thing_record 3 "c"
        /\ mirrors (_expansions_set g') (expansions g').
Proof.
  eexists. split; [reflexivity | ]. split.
  - match goal with
    | |- add_expansion ?g _ = _ =>
        refine (proj1 (add_expansion_known_or_new g (thing_record 2 "again")
                         (KInt 2) eq_refl eq_refl) _)
    end.
    eexists. split; [right; left; reflexivity | reflexivity].
  - match goal with
    | |- context [add_expansion ?g _] =>
        refine (proj2 (add_expansion_known_or_new g (thing_record 3 "c")
                         (KInt 3) eq_refl eq_refl) _ _ (VInt 3) 3
                      eq_refl eq_refl eq_refl)
    end.
    intros t [<- | [<- | []]]; discriminate.
Defined.

(** C5 as stated fails: a new identifier that does not convert to an integer,
    or that cannot be a member of a set, makes [add_expansion] raise, and the
    list of expansions keeps its length. *)
Lemma add_expansion_new_id_refused :
  exists g,
    BoardGame_init identity_url identity_url sample_game = inr g
    /\ dict_lookup "id" record_with_text_id = Some (VStr "abc")
    /\ (forall t, In t (expansions g) ->
                  raw_id (Thing_data t) <> raw_id record_with_text_id)
    /\ succeeds (snd (add_expansion g record_with_text_id)) = false
    /\ List.length (expansions (fst (add_expansion g record_with_text_id)))
       = List.length (expansions g)
    /\ add_expansion g record_with_list_id = (g, raise TypeError).
Proof.
  eexists. split; [reflexivity | ]. split; [reflexivity | ].
  split; [intros t [<- | [<- | []]]; discriminate | ].
  repeat split; reflexivity.
Qed.

(** C6, as amended: [add_expansion] and [add_expanded_game] raise their
    validation error when the mapping has no [id].  When the mapping has an
    [id] that is hashable and converts to an integer, the call returns
    without error: it changes nothing when the identifier is in the set of the
    game, and otherwise, the backing mapping holding a list under the key, it
    appends the mapping to that list and a thing wrapping it to the list of
    the game. *)
Theorem add_reference_validation (g : BoardGame) (data : dict) :
  (dict_lookup "id" data = None ->
   add_expansion g data = (g, raise (BGGError "invalid expansion data"))
   /\ add_expanded_game g data
      = (g, raise (BGGError "invalid expanded game data")))
  /\ (forall i k z,
         dict_lookup "id" data = Some i -> py_hash i = inr k ->
         py_int i = inr z ->
         (set_mem k (_expansions_set g) = true ->
          add_expansion g data = (g, ok tt))
         /\ (set_mem k (_expansions_set g) = false ->
             forall raw,
               dict_lookup "expansions" (self_data g) = Some (VList raw) ->
               exists t g',
                 add_expansion g data = (g', ok tt)
                 /\ Thing_data t = data
                 /\ expansions g' = expansions g ++ [t]
                 /\ dict_lookup "expansions" (self_data g')
                    = Some (VList (raw ++ [VDict data])))
         /\ (set_mem k (_expands_set g) = true ->
             add_expanded_game g data = (g, ok tt))
         /\ (set_mem k (_expands_set g) = false ->
             forall raw,
               dict_lookup "expands" (self_data g) = Some (VList raw) ->
               exists t g',
                 add_expanded_game g data = (g', ok tt)
                 /\ Thing_data t = data
                 /\ expands g' = expands g ++ [t]
                 /\ dict_lookup "expands" (self_data g')
                    = Some (VList (raw ++ [VDict data])))).
Proof.
  split.
  - intros Hi. unfold add_expansion, add_expanded_game, add_reference.
    rewrite Hi. split; reflexivity.
  - intros i k z Hi Hk Hz.
    assert (Hid : raw_id data = Some k)
      by (apply raw_id_Some; exists i; auto).
    split; [ | split; [ | split]].
    + apply add_expansion_known, Hid.
    + intros Hm raw Hraw.
      exists (mk_Thing z (dict_get "name" VNone data) data). eexists.
      split; [apply (add_expansion_new _ _ _ _ _ _ Hi Hk Hz Hm Hraw) | ].
      split; [reflexivity | ]. split; [reflexivity | ].
      apply dict_lookup_set_same.
    + apply add_expanded_game_known, Hid.
    + intros Hm raw Hraw.
      exists (mk_Thing z (dict_get "name" VNone data) data). eexists.
      split; [apply (add_expanded_game_new _ _ _ _ _ _ Hi Hk Hz Hm Hraw) | ].
      split; [reflexivity | ]. split; [reflexivity | ].
      apply dict_lookup_set_same.
Qed.

Lemma add_reference_validation_witness :
  exists g,
    BoardGame_init identity_url identity_url sample_game = inr g
    /\ add_expansion g record_without_id
       = (g, raise (BGGError "invalid expansion data"))
    /\ add_expansion g (thing_record 1 "again") = (g, ok tt)
    /\ exists t g',
        add_expanded_game g (thing_record 4 "base") = (g', ok tt)
        /\ Thing_data t = thing_record 4 "base"
        /\ expands g' = expands g ++ [t]
        /\ dict_lookup "expands" (self_data g')
           = Some (VList ([] ++ [VDict (thing_record 4 "base")])).
Proof.
  eexists. split; [reflexivity | ]. split; [ | split].
  - match goal with
    | |- add_expansion ?g _ = _ =>
        exact (proj1 (proj1 (add_reference_validation g record_without_id)
                            eq_refl))
    end.
  - match goal with
    | |- add_expansion ?g _ = _ =>
        exact (proj1 (proj2 (add_reference_validation
                               g (thing_record 1 "again"))
                            (VInt 1) (KInt 1) 1 eq_refl eq_refl eq_refl)
                     eq_refl)
    end.
  - match goal with
    | |- context [add_expanded_game ?g _] =>
        exact (proj2 (proj2 (proj2 (proj2 (add_reference_validation
                                             g (thing_record 4 "base"))
                                          (VInt 4) (KInt 4) 4
                                          eq_refl eq_refl eq_refl)))
                     eq_refl [] eq_refl)
    end.
Defined.

(** C6 as stated fails: a mapping that has an [id] can still be refused.  An
    identifier that does not convert to an integer is refused by the
    constructor of the thing with the validation error, after the record has
    been appended to the backing list and not to the list of the game; an
    identifier that is a list is a TypeError. *)
Lemma add_reference_id_present_refused :
  exists g,
    BoardGame_init identity_url identity_url sample_game = inr g
    /\ dict_lookup "id" record_with_text_id = Some (VStr "abc")
    /\ (exists e, snd (add_expansion g record_with_text_id) = raise e
                  /\ is_BGGError e = true)
    /\ expansions (fst (add_expansion g record_with_text_id)) = expansions g
    /\ dict_lookup "expansions"
         (self_data (fst (add_expansion g record_with_text_id)))
       = Some (VList [VDict (thing_record 1 "a"); VDict (thing_record 2 "b");
                      VDict (thing_record 1 "c"); VDict record_with_text_id])
    /\ dict_lookup "id" record_with_list_id = Some (VList [VInt 3])
    /\ add_expanded_game g record_with_list_id = (g, raise TypeError).
Proof.
  eexists. split; [reflexivity | ]. split; [reflexivity | ].
  split; [eexists; split; reflexivity | ].
  repeat split; reflexivity.
Qed.

(** * Further properties of the module *)

(** ** Comments and polls *)

Lemma BoardGame_init_own_fields
    (fix_url fix_unsigned_negative : value -> result value)
    (data : dict) (g : BoardGame) :
  BoardGame_init fix_url fix_unsigned_negative data = inr g ->
  py_iter (dict_get "comments" (VList []) data) = inr (_comments g)
  /\ poll_results "suggested_numplayers" numplayers_entry data
     = inr (_poll_results_numplayers g)
  /\ poll_results "suggested_playerage" playerage_entry data
     = inr (_poll_results_playerage g)
  /\ poll_results "language_dependence" langdeps_entry data
     = inr (_poll_results_langdeps g).
Proof.
  unfold BoardGame_init, BoardGame_fields. intros H.
  bind_inv H. bind_inv Ha. bind_inv Ha. bind_inv Ha. bind_inv Ha.
  bind_inv Ha. bind_inv Ha. bind_inv Ha. injection Ha as <-.
  bind_inv H. injection H as <-. cbn. auto.
Qed.


Lemma add_comments_app (g : BoardGame) (cs : list value) :
  add_comments g cs = with_comments (_comments g ++ cs) g.
Proof.
  unfold add_comments. revert g.
  induction cs as [ | c cs IH]; intros g; cbn [fold_left].
  - rewrite app_nil_r. destruct g; reflexivity.
  - rewrite IH. unfold add_comment, with_comments. cbn.
    rewrite <- app_assoc. reflexivity.
Qed.

(** X1: the comments of a constructed game are the elements of the input
    [comments], all of them and in their order; there is no deduplication. *)
Theorem game_comments_are_the_input
    (fix_url fix_unsigned_negative : value -> result value)
    (data : dict) (g : BoardGame) :
  BoardGame_init fix_url fix_unsigned_negative data = inr g ->
  py_iter (dict_get "comments" (VList []) data) = inr (comments g)
  /\ (forall cs, dict_lookup "comments" data = Some (VList cs) ->
                 comments g = cs)
  /\ (dict_lookup "comments" data = None -> comments g = []).
Proof.
  intros H. destruct (BoardGame_init_own_fields _ _ _ _ H) as (Hc & _).
  unfold comments. split; [exact Hc | ]. split.
  - intros cs Hcs. unfold dict_get in Hc. rewrite Hcs in Hc.
    injection Hc as <-. reflexivity.
  - intros Hn. unfold dict_get in Hc. rewrite Hn in Hc.
    injection Hc as <-. reflexivity.
Qed.

Lemma game_comments_are_the_input_witness :
  exists g,
    BoardGame_init identity_url identity_url sample_game = inr g
    /\ comments g
       = [VDict [("username", VStr "a"); ("comment", VStr "hi");
                 ("rating", VStr "n/a")]].
Proof.
  eexists. split; [reflexivity | ].
  match goal with
  | |- comments ?g = _ =>
      exact (proj1 (proj2 (game_comments_are_the_input
                             identity_url identity_url sample_game g
                             eq_refl)) _ eq_refl)
  end.
Defined.

(** X2: [add_comment] always appends: after adding the comments [cs] one by
    one the list of comments is the old list followed by [cs], equal comments
    included, and nothing else of the game has changed. *)
Theorem add_comments_append (g : BoardGame) (cs : list value) :
  comments (add_comments g cs) = comments g ++ cs
  /\ List.length (comments (add_comments g cs))
     = (List.length (comments g) + List.length cs)%nat
  /\ expansions (add_comments g cs) = expansions g
  /\ _expansions_set (add_comments g cs) = _expansions_set g
  /\ expands (add_comments g cs) = expands g
  /\ _expands_set (add_comments g cs) = _expands_set g
  /\ videos (add_comments g cs) = videos g
  /\ player_number_votes (add_comments g cs) = player_number_votes g
  /\ player_age_votes (add_comments g cs) = player_age_votes g
  /\ language_dependence_votes (add_comments g cs)
     = language_dependence_votes g
  /\ base (add_comments g cs) = base g.
Proof.
  rewrite add_comments_app. unfold comments, with_comments. cbn.
  rewrite length_app. repeat split; reflexivity.
Qed.

Lemma map_result_inv {A B} (f : A -> result B) (l : list A) (out : list B) :
  map_result f l = inr out -> Forall2 (fun x y => f x = inr y) l out.
Proof.
  revert out. induction l as [ | x l IH]; intros out; cbn [map_result].
  - intros H. injection H as <-. constructor.
  - intros H. bind_inv H. bind_inv H. injection H as <-.
    constructor; auto.
Qed.

Lemma poll_results_inv k entry data out :
  poll_results k entry data = inr out ->
  match dict_lookup k data with
  | None => out = []
  | Some poll =>
      exists items,
        py_getitem poll "results" = inr (VDict items)
        /\ Forall2 (fun e r => entry e = inr r) items out
  end.
Proof.
  unfold poll_results. destruct (dict_lookup k data) as [poll | ].
  - intros H. bind_inv H. bind_inv H.
    destruct a as [ | | | | | items]; try discriminate.
    injection Ha0 as <-. exists items. split; [exact Ha | ].
    apply map_result_inv, H.
  - intros H. injection H as <-. reflexivity.
Qed.

(** X3: a constructed game has a list for each of the three polls: empty when
    the key of the poll is absent, and otherwise one result per entry of the
    mapping under [results], in the order of its keys, labelled by the key.
    The result for a player age holds the value of the entry as its votes;
    the results for a number of players and for a language dependence hold
    the fields [best], [recommended], [not_recommended] and [description],
    [num_votes] of the entry. *)
Theorem game_poll_results
    (fix_url fix_unsigned_negative : value -> result value)
    (data : dict) (g : BoardGame) :
  BoardGame_init fix_url fix_unsigned_negative data = inr g ->
  match dict_lookup "suggested_playerage" data with
  | None => player_age_votes g = []
  | Some poll =>
      exists items,
        py_getitem poll "results" = inr (VDict items)
        /\ player_age_votes g
           = map (fun e => [("_age", VStr (fst e)); ("_votes", snd e)]) items
  end
  /\ match dict_lookup "suggested_numplayers" data with
     | None => player_number_votes g = []
     | Some poll =>
         exists items,
           py_getitem poll "results" = inr (VDict items)
           /\ Forall2
                (fun e r =>
                   exists best recommended not_recommended,
                     py_getitem (snd e) "best" = inr best
                     /\ py_getitem (snd e) "recommended" = inr recommended
                     /\ py_getitem (snd e) "not_recommended"
                        = inr not_recommended
                     /\ r = [("_count", VStr (fst e)); ("_best", best);
                             ("_recommended", recommended);
                             ("_not_recommended", not_recommended)])
                items (player_number_votes g)
     end
  /\ match dict_lookup "language_dependence" data with
     | None => language_dependence_votes g = []
     | Some poll =>
         exists items,
           py_getitem poll "results" = inr (VDict items)
           /\ Forall2
                (fun e r =>
                   exists description votes,
                     py_getitem (snd e) "description" = inr description
                     /\ py_getitem (snd e) "num_votes" = inr votes
                     /\ r = [("_level", VStr (fst e));
                             ("_description", description);
                             ("_votes", votes)])
                items (language_dependence_votes g)
     end.
Proof.
  intros H.
  destruct (BoardGame_init_own_fields _ _ _ _ H) as (_ & Hn & Ha & Hl).
  apply poll_results_inv in Hn, Ha, Hl.
  unfold player_age_votes, player_number_votes, language_dependence_votes.
  split; [ | split].
  - destruct (dict_lookup "suggested_playerage" data) as [poll | ];
      [ | exact Ha].
    destruct Ha as (items & Hr & Hall). exists items. split; [exact Hr | ].
    clear - Hall. induction Hall as [ | e r items out He _ IH]; simpl.
    + reflexivity.
    + unfold playerage_entry in He. injection He as <-. rewrite IH.
      reflexivity.
  - destruct (dict_lookup "suggested_numplayers" data) as [poll | ];
      [ | exact Hn].
    destruct Hn as (items & Hr & Hall). exists items. split; [exact Hr | ].
    eapply Forall2_impl; [ | exact Hall].
    intros e r He. unfold numplayers_entry in He.
    bind_inv He. bind_inv He. bind_inv He. injection He as <-.
    exists a, a0, a1. auto.
  - destruct (dict_lookup "language_dependence" data) as [poll | ];
      [ | exact Hl].
    destruct Hl as (items & Hr & Hall). exists items. split; [exact Hr | ].
    eapply Forall2_impl; [ | exact Hall].
    intros e r He. unfold langdeps_entry in He.
    bind_inv He. bind_inv He. injection He as <-.
    exists a, a0. auto.
Qed.

Lemma game_poll_results_witness :
  exists g,
    BoardGame_init identity_url identity_url sample_game = inr g
    /\ player_age_votes g
       = [[("_age", VStr "10"); ("_votes", VInt 3)];
          [("_age", VStr "12"); ("_votes", VInt 4)]]
    /\ player_number_votes g = []
    /\ language_dependence_votes g = [].
Proof.
  eexists. split; [reflexivity | ].
  match goal with
  | |- player_age_votes ?g = _ /\ _ =>
      destruct (game_poll_results identity_url identity_url sample_game g
                  eq_refl) as (Ha & Hn & Hl)
  end.
  cbn in Ha, Hn, Hl. destruct Ha as (items & Hr & Ha).
  injection Hr as <-. auto.
Defined.

(** ** Attributes of a constructed game *)



(** X5: a constructed game reads the input mapping: it keeps the mapping as
    its backing data, the numbers of users who rated, own and trade the game
    are the entries of the [stats] mapping, and the numbers of users wanting,
    wishing and commenting are read from the mapping of the game itself, not
    from [stats]. *)
Theorem game_accessors_read_the_input
    (fix_url fix_unsigned_negative : value -> result value)
    (data : dict) (g : BoardGame) :
  BoardGame_init fix_url fix_unsigned_negative data = inr g ->
  self_data g = data
  /\ exists stats,
      dict_lookup "stats" data = Some (VDict stats)
      /\ BaseGame_users_rated (base g) = dict_get "usersrated" VNone stats
      /\ BoardGame_users_owned g = dict_get "owned" VNone stats
      /\ BoardGame_users_trading g = dict_get "trading" VNone stats
      /\ BoardGame_users_wanting g = dict_get "wanting" VNone data
      /\ BoardGame_users_wishing g = dict_get "wishing" VNone data
      /\ BoardGame_users_commented g = dict_get "numcomments" VNone data.
Proof.
  intros H. destruct (BoardGame_init_inv _ _ _ _ H) as (_ & _ & _ & Hb).
  destruct (BaseGame_init_inv _ _ _ _ Hb) as (st & Hst & Hs & _ & Hd).
  unfold self_data. split; [exact Hd | ].
  destruct st as [ | | | | | stats]; try discriminate.
  destruct (BoardGameStats_init_inv _ _ Hs) as (_ & _ & _ & Hsd).
  exists stats. split; [exact Hst | ].
  unfold BaseGame_users_rated, BoardGame_users_owned, BoardGame_users_trading,
    BoardGame_users_wanting, BoardGame_users_wishing,
    BoardGame_users_commented, Stats_users_rated, Stats_users_owned,
    Stats_users_trading, self_data.
  rewrite Hsd, Hd. repeat split; reflexivity.
Qed.

Lemma game_accessors_read_the_input_witness :
  exists g,
    BoardGame_init identity_url identity_url game_with_counts = inr g
    /\ BoardGame_users_owned g = VInt 7
    /\ BoardGame_users_wanting g = VNone
    /\ BoardGame_users_wishing g = VInt 4.
Proof.
  eexists. split; [reflexivity | ].
  match goal with
  | |- BoardGame_users_owned ?g = _ /\ _ =>
      destruct (game_accessors_read_the_input
                  identity_url identity_url game_with_counts g eq_refl)
        as (_ & stats & Hs & _ & Ho & _ & Hw & Hwi & _)
  end.
  injection Hs as <-. rewrite Ho, Hw, Hwi. repeat split; reflexivity.
Defined.

(** ** Versions *)

Lemma fix_key_lookup (fix_url : value -> result value) (k k' : string)
    (kw kw' : dict) :
  fix_key fix_url k kw = inr kw' ->
  (k' <> k -> dict_lookup k' kw' = dict_lookup k' kw)
  /\ match dict_lookup k kw with
     | None => dict_lookup k kw' = None
     | Some u => exists u', fix_url u = inr u' /\ dict_lookup k kw' = Some u'
     end.
Proof.
  unfold fix_key. destruct (dict_lookup k kw) as [u | ] eqn:E.
  - intros H. bind_inv H. injection H as <-. split.
    + intros Hk. apply dict_lookup_set_other, Hk.
    + exists a. split; [exact Ha | apply dict_lookup_set_same].
  - intros H. injection H as <-. auto.
Qed.

(** X8: a constructed version wraps a copy of its mapping in which only
    [thumbnail] and [image] can differ: each is absent if it was absent and
    otherwise replaced by what [fix_url] makes of it; every other key reads
    as in the input. *)
Theorem version_fixes_only_urls (fix_url : value -> result value)
    (data : dict) (v : BoardGameVersion) :
  BoardGameVersion_init fix_url data = inr v ->
  (forall k, k <> "thumbnail" -> k <> "image" ->
             dict_lookup k (Thing_data v) = dict_lookup k data)
  /\ match dict_lookup "thumbnail" data with
     | None => dict_lookup "thumbnail" (Thing_data v) = None
     | Some u =>
         exists u', fix_url u = inr u'
                    /\ dict_lookup "thumbnail" (Thing_data v) = Some u'
     end
  /\ match dict_lookup "image" data with
     | None => dict_lookup "image" (Thing_data v) = None
     | Some u =>
         exists u', fix_url u = inr u'
                    /\ dict_lookup "image" (Thing_data v) = Some u'
     end.
Proof.
  unfold BoardGameVersion_init. intros H. bind_inv H. bind_inv H.
  rewrite (Thing_init_data _ _ H).
  split; [ | split].
  - intros k Ht Hi.
    rewrite (proj1 (fix_key_lookup _ _ k _ _ Ha0) Hi).
    apply (proj1 (fix_key_lookup _ _ k _ _ Ha) Ht).
  - rewrite (proj1 (fix_key_lookup _ _ "thumbnail" _ _ Ha0))
      by discriminate.
    apply (proj2 (fix_key_lookup _ _ "thumbnail" _ _ Ha)).
  - pose proof (proj2 (fix_key_lookup _ _ "image" _ _ Ha0)) as Hi.
    rewrite (proj1 (fix_key_lookup _ _ "image" _ _ Ha)) in Hi
      by discriminate.
    exact Hi.
Qed.

Lemma version_fixes_only_urls_witness :
  exists v,
    BoardGameVersion_init prefix_url version_record = inr v
    /\ dict_lookup "language" (Thing_data v) = Some (VStr "English")
    /\ dict_lookup "thumbnail" (Thing_data v)
       = Some (VStr "http://cf.geekdo-images.com/t.jpg")
    /\ dict_lookup "image" (Thing_data v) = None.
Proof.
  eexists. split; [reflexivity | ].
  match goal with
  | |- dict_lookup _ (Thing_data ?v) = _ /\ _ =>
      destruct (version_fixes_only_urls prefix_url version_record v eq_refl)
        as (Hk & Ht & Hi)
  end.
  split; [apply Hk; discriminate | ].
  split; [ | exact Hi].
  destruct Ht as (u' & Hu & Ht). injection Hu as <-. exact Ht.
Defined.

(** X9: [version] of a collection game is null exactly when the game has no
    versions; when the input holds a list of versions that starts with a
    record, it is the version constructed from that first record. *)
Theorem collection_version_is_first
    (fix_url fix_unsigned_negative : value -> result value)
    (data : dict) (b : BaseGame) :
  CollectionBoardGame_init fix_url fix_unsigned_negative data = inr b ->
  (Collection.version b = None <-> versions b = [])
  /\ (dict_lookup "versions" data = None -> Collection.version b = None)
  /\ (forall d rest,
         dict_lookup "versions" data = Some (VList (VDict d :: rest)) ->
         exists v, Collection.version b = Some v
                   /\ BoardGameVersion_init fix_url d = inr v).
Proof.
  unfold CollectionBoardGame_init. intros H.
  destruct (BaseGame_init_inv _ _ _ _ H) as (st & _ & _ & Hvs & _).
  apply load_deduplicated in Hvs. destruct Hvs as (ds & Hit & Hall).
  unfold Collection.version, versions in *.
  split; [ | split].
  - destruct (_versions b); split; intros E;
      (reflexivity || discriminate E).
  - intros Hn. unfold dict_get in Hit. rewrite Hn in Hit.
    injection Hit as Hit. destruct ds; [ | discriminate].
    inversion Hall. reflexivity.
  - intros d rest Hl. unfold dict_get in Hit. rewrite Hl in Hit.
    injection Hit as Hit. destruct ds as [ | d' ds]; [discriminate | ].
    injection Hit as <- _. cbn [first_by_id] in Hall.
    inversion Hall as [ | ? w ? ws Hw _]; subst.
    exists w. auto.
Qed.

Lemma collection_version_is_first_witness :
  exists b,
    CollectionBoardGame_init identity_url identity_url
      (collection_game (VInt 1)) = inr b
    /\ exists v,
        Collection.version b = Some v
        /\ BoardGameVersion_init identity_url
             (thing_record 9 "first edition")
           = inr v.
Proof.
  eexists. split; [reflexivity | ].
  match goal with
  | |- exists v, Collection.version ?b = _ /\ _ =>
      exact (proj2 (proj2 (collection_version_is_first
                             identity_url identity_url
                             (collection_game (VInt 1)) b eq_refl))
                   (thing_record 9 "first edition")
                   [VDict (thing_record 10 "second edition")] eq_refl)
  end.
Defined.

(** X10: while a base game is constructed, once the URLs are fixed, the
    statistics constructed and the year read, the first version record
    without [id] that the loop reaches stops construction with the validation
    error "invalid version data". *)
Theorem version_without_id_is_invalid
    (fix_url fix_unsigned_negative : value -> result value)
    (data : dict) (pre : list value) (d : dict) (post : list value)
    (st : value) :
  dict_lookup "id" d = None ->
  succeeds (fixed_url_of fix_url "thumbnail" data) = true ->
  succeeds (fixed_url_of fix_url "image" data) = true ->
  dict_lookup "stats" data = Some st ->
  succeeds (BoardGameStats_init st) = true ->
  succeeds (year_published_of fix_unsigned_negative data) = true ->
  py_iter (dict_get "versions" (VList []) data)
  = inr (pre ++ VDict d :: post) ->
  succeeds (unique_loop (BoardGameVersion_init fix_url)
                        "invalid version data" pre ([], []))
  = true ->
  BaseGame_init fix_url fix_unsigned_negative data
  = raise (BGGError "invalid version data").
Proof.
  intros Hd Ht Hi Hst Hs Hy Hit Hpre. unfold BaseGame_init.
  destruct (fixed_url_of fix_url "thumbnail" data); [discriminate | ].
  destruct (fixed_url_of fix_url "image" data); [discriminate | ].
  cbn [bind]. rewrite Hst.
  destruct (BoardGameStats_init st); [discriminate | ].
  destruct (year_published_of fix_unsigned_negative data); [discriminate | ].
  cbn [bind]. rewrite Hit. cbn [bind].
  destruct (unique_loop _ _ pre _) as [e | st1] eqn:E; [discriminate | ].
  rewrite (unique_loop_missing_id _ _ _ _ _ _ _ _ E Hd). reflexivity.
Qed.

Lemma version_without_id_is_invalid_witness :
  BaseGame_init identity_url identity_url
    (game_with "versions"
       [VDict (thing_record 9 "first edition"); VDict record_without_id])
  = raise (BGGError "invalid version data").
Proof.
  apply (version_without_id_is_invalid identity_url identity_url
           (game_with "versions"
              [VDict (thing_record 9 "first edition");
               VDict record_without_id])
           [VDict (thing_record 9 "first edition")] record_without_id []
           (VDict []));
    reflexivity.
Defined.

(** ** Invariants of the lists of references *)

Lemma raw_id_ext (a b : dict) :
  dict_lookup "id" a = dict_lookup "id" b -> raw_id a = raw_id b.
Proof. unfold raw_id. intros ->. reflexivity. Qed.

Lemma BoardGameVideo_init_raw_id (d : dict) (v : BoardGameVideo) :
  BoardGameVideo_init d = inr v -> raw_id (Thing_data v) = raw_id d.
Proof.
  intros H. destruct (BoardGameVideo_init_inv _ _ H) as (u & z & _ & _ & Hd).
  apply raw_id_ext. rewrite Hd.
  rewrite dict_lookup_set_other by discriminate.
  apply video_kw_lookup_other. discriminate.
Qed.

Lemma BoardGameVersion_init_raw_id (fix_url : value -> result value)
    (d : dict) (v : BoardGameVersion) :
  BoardGameVersion_init fix_url d = inr v -> raw_id (Thing_data v) = raw_id d.
Proof.
  unfold BoardGameVersion_init. intros H. bind_inv H. bind_inv H.
  rewrite (Thing_init_data _ _ H). apply raw_id_ext.
  rewrite (proj1 (fix_key_lookup _ _ "id" _ _ Ha0)) by discriminate.
  apply (proj1 (fix_key_lookup _ _ "id" _ _ Ha)). discriminate.
Qed.

Lemma load_distinct_ids (ctor : dict -> result Thing) (msg : string)
    (input : value) (ws : list Thing) (seen : pyset) :
  (forall d w, ctor d = inr w -> raw_id (Thing_data w) = raw_id d) ->
  (l <- py_iter input;; unique_loop ctor msg l ([], [])) = inr (ws, seen) ->
  map Some seen = raw_ids ws /\ NoDup seen.
Proof.
  intros Hctor H. bind_inv H.
  destruct (unique_loop_first_by_id _ _ _ _ _ _ H) as (ds & -> & Hall & Hset).
  pose proof (first_by_id_NoDup _ (unique_loop_ids _ _ _ _ _ H)) as Hnd.
  rewrite <- Hset in Hnd. apply NoDup_map_inv in Hnd.
  split; [ | exact Hnd]. rewrite Hset. unfold raw_ids. clear - Hall Hctor.
  induction Hall as [ | d w ds' ws' Hw _ IH]; simpl.
  - reflexivity.
  - rewrite (Hctor _ _ Hw), IH. reflexivity.
Qed.

Lemma NoDup_snoc {A} (l : list A) (x : A) :
  NoDup l -> ~ In x l -> NoDup (l ++ [x]).
Proof.
  intros Hl Hx. apply NoDup_app; [exact Hl | repeat constructor; auto | ].
  intros y Hy [<- | []]. exact (Hx Hy).
Qed.

(** What a call of [add_expansion] that returns has done. *)
Lemma add_expansion_ok_inv (g g' : BoardGame) (d : dict) :
  add_expansion g d = (g', ok tt) ->
  exists k,
    raw_id d = Some k
    /\ ((set_mem k (_expansions_set g) = true /\ g' = g)
        \/ (set_mem k (_expansions_set g) = false
            /\ exists raw t,
                dict_lookup "expansions" (self_data g) = Some (VList raw)
                /\ Thing_init d = inr t
                /\ g' = with_new_expansion raw d k t g)).
Proof.
  unfold add_expansion, add_reference.
  destruct (dict_lookup "id" d) as [i | ] eqn:Hi; [ | discriminate].
  destruct (py_hash i) as [e | k] eqn:Hk; [discriminate | ].
  intros H. exists k.
  split; [apply raw_id_Some; exists i; auto | ].
  destruct (set_mem k (_expansions_set g)) eqn:Hm.
  - left. injection H as <-. auto.
  - right. split; [reflexivity | ].
    destruct (dict_lookup "expansions" (self_data g)) as [raw | ];
      [ | discriminate].
    destruct raw as [ | | | | raw | ]; try discriminate.
    cbn [py_append ok] in H.
    destruct (Thing_init d) as [e | t]; [destruct e; discriminate | ].
    exists raw, t. split; [reflexivity | ]. split; [reflexivity | ].
    injection H as <-. unfold with_new_expansion. game_simpl.
    rewrite (set_add_new _ _ Hm). reflexivity.
Qed.

Lemma add_expanded_game_ok_inv (g g' : BoardGame) (d : dict) :
  add_expanded_game g d = (g', ok tt) ->
  exists k,
    raw_id d = Some k
    /\ ((set_mem k (_expands_set g) = true /\ g' = g)
        \/ (set_mem k (_expands_set g) = false
            /\ exists raw t,
                dict_lookup "expands" (self_data g) = Some (VList raw)
                /\ Thing_init d = inr t
                /\ g' = with_new_expanded_game raw d k t g)).
Proof.
  unfold add_expanded_game, add_reference.
  destruct (dict_lookup "id" d) as [i | ] eqn:Hi; [ | discriminate].
  destruct (py_hash i) as [e | k] eqn:Hk; [discriminate | ].
  intros H. exists k.
  split; [apply raw_id_Some; exists i; auto | ].
  destruct (set_mem k (_expands_set g)) eqn:Hm.
  - left. injection H as <-. auto.
  - right. split; [reflexivity | ].
    destruct (dict_lookup "expands" (self_data g)) as [raw | ];
      [ | discriminate].
    destruct raw as [ | | | | raw | ]; try discriminate.
    cbn [py_append ok] in H.
    destruct (Thing_init d) as [e | t]; [destruct e; discriminate | ].
    exists raw, t. split; [reflexivity | ]. split; [reflexivity | ].
    injection H as <-. unfold with_new_expanded_game. game_simpl.
    rewrite (set_add_new _ _ Hm). reflexivity.
Qed.

(** The set and the list stay in step, without duplicates, when a new
    record is appended. *)
Lemma distinct_ids_snoc (seen : pyset) (things : list Thing) (k : key)
    (d : dict) (t : Thing) :
  map Some seen = raw_ids things -> NoDup seen ->
  set_mem k seen = false -> raw_id d = Some k -> Thing_init d = inr t ->
  map Some (seen ++ [k]) = raw_ids (things ++ [t]) /\ NoDup (seen ++ [k]).
Proof.
  intros Hm Hnd Hk Hd Ht. split.
  - unfold raw_ids in *. rewrite !map_app, Hm. cbn [map].
    rewrite (Thing_init_data _ _ Ht), Hd. reflexivity.
  - apply NoDup_snoc; [exact Hnd | ].
    intros Hin. apply set_mem_In in Hin. congruence.
Qed.

Lemma reachable_distinct_ids
    (fix_url fix_unsigned_negative : value -> result value) (g : BoardGame) :
  reachable fix_url fix_unsigned_negative g ->
  distinct_ids (_expansions_set g) (expansions g)
  /\ distinct_ids (_expands_set g) (expands g)
  /\ distinct_ids (_videos_ids g) (videos g)
  /\ distinct_ids (_versions_set (base g)) (versions (base g)).
Proof.
  unfold distinct_ids, expansions, expands, videos, versions.
  induction 1 as [data g H | g c _ IH | g g' d _ IH H | g g' d _ IH H].
  - destruct (BoardGame_init_inv _ _ _ _ H) as (He & Hx & Hv & Hb).
    destruct (BaseGame_init_inv _ _ _ _ Hb) as (st & _ & _ & Hvs & _).
    split; [ | split; [ | split]].
    + eapply load_distinct_ids; [ | exact He].
      intros d w Hw. rewrite (Thing_init_data _ _ Hw). reflexivity.
    + eapply load_distinct_ids; [ | exact Hx].
      intros d w Hw. rewrite (Thing_init_data _ _ Hw). reflexivity.
    + eapply load_distinct_ids; [ | exact Hv].
      apply BoardGameVideo_init_raw_id.
    + eapply load_distinct_ids; [ | exact Hvs].
      apply BoardGameVersion_init_raw_id.
  - exact IH.
  - destruct (add_expansion_ok_inv _ _ _ H)
      as (k & Hk & [[_ ->] | (Hm & raw & t & _ & Ht & ->)]); [exact IH | ].
    destruct IH as ((Hs & Hn) & Hx & Hv & Hvs).
    unfold with_new_expansion. game_simpl.
    split; [ | auto].
    apply (distinct_ids_snoc _ _ _ _ _ Hs Hn Hm Hk Ht).
  - destruct (add_expanded_game_ok_inv _ _ _ H)
      as (k & Hk & [[_ ->] | (Hm & raw & t & _ & Ht & ->)]); [exact IH | ].
    destruct IH as (He & (Hs & Hn) & Hv & Hvs).
    unfold with_new_expanded_game. game_simpl.
    split; [exact He | ]. split; [ | auto].
    apply (distinct_ids_snoc _ _ _ _ _ Hs Hn Hm Hk Ht).
Qed.

(** X11: in every game in use, constructed and then changed by calls of
    [add_comment], [add_expansion] and [add_expanded_game] that returned, no
    two expansions have the same raw identifier, and likewise for the
    expanded games, the videos and the versions; each set of identifiers
    holds exactly the identifiers of its list, once each. *)
Theorem games_in_use_have_distinct_ids
    (fix_url fix_unsigned_negative : value -> result value) (g : BoardGame) :
  reachable fix_url fix_unsigned_negative g ->
  (NoDup (raw_ids (expansions g))
   /\ map Some (_expansions_set g) = raw_ids (expansions g))
  /\ (NoDup (raw_ids (expands g))
      /\ map Some (_expands_set g) = raw_ids (expands g))
  /\ (NoDup (raw_ids (videos g))
      /\ map Some (_videos_ids g) = raw_ids (videos g))
  /\ (NoDup (raw_ids (versions (base g)))
      /\ map Some (_versions_set (base g)) = raw_ids (versions (base g))).
Proof.
  intros H.
  destruct (reachable_distinct_ids _ _ _ H)
    as ((E1 & N1) & (E2 & N2) & (E3 & N3) & (E4 & N4)).
  assert (Hinj : forall l : pyset, NoDup l -> NoDup (map Some l)).
  { intros l Hl. induction Hl as [ | x l Hx _ IH]; simpl; constructor; auto.
    intros Hin. apply in_map_iff in Hin. destruct Hin as (y & E & Hy).
    injection E as ->. exact (Hx Hy). }
  rewrite <- E1, <- E2, <- E3, <- E4. repeat split; auto.
Qed.

Lemma games_in_use_have_distinct_ids_witness :
  exists g g',
    BoardGame_init identity_url identity_url sample_game = inr g
    /\ add_expansion g (thing_record 3 "c") = (g', ok tt)
    /\ NoDup (raw_ids (expansions g'))
    /\ raw_ids (expansions g') = [Some (KInt 1); Some (KInt 2); Some (KInt 3)].
Proof.
  eexists. eexists. split; [vm_compute; reflexivity | ].
  split; [vm_compute; reflexivity | ].
  split; [ | reflexivity].
  match goal with
  | |- NoDup (raw_ids (expansions ?g')) =>
      refine (proj1 (proj1 (games_in_use_have_distinct_ids
                              identity_url identity_url g' _)))
  end.
  eapply (reach_expansion _ _ _ _ (thing_record 3 "c"));
    [apply (reach_init _ _ sample_game); vm_compute; reflexivity
    | vm_compute; reflexivity].
Defined.

(** ** The backing lists and the lists of things *)

Lemma first_by_id_snoc (ds : list dict) (d : dict) :
  Forall (fun x => same_id x d = false) ds ->
  first_by_id (ds ++ [d]) = first_by_id ds ++ [d].
Proof.
  induction 1 as [ | x ds Hx _ IH]; cbn [app first_by_id].
  - reflexivity.
  - rewrite IH, filter_app. cbn [filter]. rewrite Hx. reflexivity.
Qed.

(** A record whose identifier is not in the set differs, by identifier, from
    the records of the raw list. *)
Lemma unseen_record_is_fresh (seen : pyset) (things : list Thing)
    (ds : list dict) (d : dict) (k : key) :
  map Some seen = raw_ids things ->
  map Thing_data things = first_by_id ds ->
  raw_id d = Some k -> set_mem k seen = false ->
  Forall (fun x => same_id x d = false) ds.
Proof.
  intros Hs Hd Hk Hm. apply Forall_forall. intros x Hx.
  destruct (same_id x d) eqn:E; [ | reflexivity]. exfalso.
  unfold same_id in E. rewrite Hk in E.
  destruct (raw_id x) as [k' | ] eqn:Hx'; [ | discriminate].
  apply key_eqb_eq in E. subst k'.
  destruct (first_by_id_covers ds x Hx ltac:(congruence)) as (d' & Hd' & Hid).
  rewrite <- Hd in Hd'. apply in_map_iff in Hd'.
  destruct Hd' as (t & <- & Ht).
  assert (Hin : In (Some k) (map Some seen)).
  { rewrite Hs, <- Hx', <- Hid. unfold raw_ids.
    apply in_map_iff. exists t. auto. }
  apply in_map_iff in Hin. destruct Hin as (k' & Ek & Hin).
  injection Ek as ->. apply set_mem_In in Hin. congruence.
Qed.

Lemma load_things_in_sync (field msg : string) (data : dict)
    (ws : list Thing) (seen : pyset) :
  (l <- py_iter (dict_get field (VList []) data);;
   unique_loop Thing_init msg l ([], [])) = inr (ws, seen) ->
  in_sync field ws data.
Proof.
  intros H raw Hraw. apply load_deduplicated in H.
  apply deduplicated_things in H. destruct H as (ds & Hit & Hd).
  unfold dict_get in Hit. rewrite Hraw in Hit. injection Hit as ->.
  exists ds. auto.
Qed.

Lemma in_sync_snoc (field : string) (seen : pyset) (things : list Thing)
    (data : dict) (raw : list value) (d : dict) (k : key) (t : Thing) :
  in_sync field things data ->
  map Some seen = raw_ids things ->
  dict_lookup field data = Some (VList raw) ->
  raw_id d = Some k -> set_mem k seen = false -> Thing_init d = inr t ->
  in_sync field (things ++ [t])
          (dict_set field (VList (raw ++ [VDict d])) data).
Proof.
  intros Hsync Hs Hraw Hk Hm Ht raw' Hraw'.
  rewrite dict_lookup_set_same in Hraw'. injection Hraw' as <-.
  destruct (Hsync raw Hraw) as (ds & -> & Hd).
  exists (ds ++ [d]). split; [rewrite map_app; reflexivity | ].
  rewrite map_app, Hd. cbn [map]. rewrite (Thing_init_data _ _ Ht).
  symmetry. apply first_by_id_snoc.
  apply (unseen_record_is_fresh _ _ _ _ _ Hs Hd Hk Hm).
Qed.

(** X12: the list of expansions of a constructed game is the deduplication
    of the raw list under [expansions], when the backing mapping holds a list
    there, and a call of [add_expansion] that returns keeps it so, on a game
    whose set holds the identifiers of its list: the record is appended to
    both or to none.  Likewise for the expanded games, the key [expands] and
    [add_expanded_game]. *)
Theorem references_stay_in_sync :
  (forall (fix_url fix_unsigned_negative : value -> result value)
          (data : dict) (g : BoardGame),
      BoardGame_init fix_url fix_unsigned_negative data = inr g ->
      in_sync "expansions" (expansions g) (self_data g)
      /\ in_sync "expands" (expands g) (self_data g))
  /\ (forall (g g' : BoardGame) (d : dict),
         add_expansion g d = (g', ok tt) ->
         map Some (_expansions_set g) = raw_ids (expansions g) ->
         in_sync "expansions" (expansions g) (self_data g) ->
         in_sync "expansions" (expansions g') (self_data g')
         /\ map Some (_expansions_set g') = raw_ids (expansions g'))
  /\ (forall (g g' : BoardGame) (d : dict),
         add_expanded_game g d = (g', ok tt) ->
         map Some (_expands_set g) = raw_ids (expands g) ->
         in_sync "expands" (expands g) (self_data g) ->
         in_sync "expands" (expands g') (self_data g')
         /\ map Some (_expands_set g') = raw_ids (expands g')).
Proof.
  unfold expansions, expands. split; [ | split].
  - intros fu fn data g H.
    destruct (BoardGame_init_inv _ _ _ _ H) as (He & Hx & _ & Hb).
    destruct (BaseGame_init_inv _ _ _ _ Hb) as (_ & _ & _ & _ & Hd).
    unfold self_data. rewrite Hd.
    split; eapply load_things_in_sync; eassumption.
  - intros g g' d H Hs Hsync.
    destruct (add_expansion_ok_inv _ _ _ H)
      as (k & Hk & [[_ ->] | (Hm & raw & t & Hraw & Ht & ->)]); [auto | ].
    unfold with_new_expansion, self_data. game_simpl.
    cbn [game_data set_game_data]. split.
    + apply (in_sync_snoc _ _ _ _ _ _ _ _ Hsync Hs Hraw Hk Hm Ht).
    + unfold raw_ids in *. rewrite !map_app, Hs. cbn [map].
      rewrite (Thing_init_data _ _ Ht), Hk. reflexivity.
  - intros g g' d H Hs Hsync.
    destruct (add_expanded_game_ok_inv _ _ _ H)
      as (k & Hk & [[_ ->] | (Hm & raw & t & Hraw & Ht & ->)]); [auto | ].
    unfold with_new_expanded_game, self_data. game_simpl.
    cbn [game_data set_game_data]. split.
    + apply (in_sync_snoc _ _ _ _ _ _ _ _ Hsync Hs Hraw Hk Hm Ht).
    + unfold raw_ids in *. rewrite !map_app, Hs. cbn [map].
      rewrite (Thing_init_data _ _ Ht), Hk. reflexivity.
Qed.

Lemma references_stay_in_sync_witness :
  exists g g',
    BoardGame_init identity_url identity_url sample_game = inr g
    /\ add_expansion g (thing_record 3 "c") = (g', ok tt)
    /\ in_sync "expansions" (expansions g') (self_data g')
    /\ map Some (_expansions_set g') = raw_ids (expansions g').
Proof.
  eexists. eexists. split; [vm_compute; reflexivity | ].
  match goal with
  | |- add_expansion ?g _ = _ /\ _ => pose (g0 := g)
  end.
  split; [vm_compute; reflexivity | ].
  match goal with
  | |- in_sync _ (expansions ?g') _ /\ _ =>
      refine (proj1 (proj2 references_stay_in_sync)
                    g0 g' (thing_record 3 "c") _ eq_refl _)
  end.
  - vm_compute. reflexivity.
  - exact (proj1 (proj1 references_stay_in_sync identity_url identity_url
                        sample_game g0 eq_refl)).
Defined.

(** ** Calls of the mutators *)

Lemma set_mem_snoc (k : key) (s : pyset) : set_mem k (s ++ [k]) = true.
Proof. apply set_mem_In, in_or_app. right. left. reflexivity. Qed.

(** X13: [add_expansion] and [add_expanded_game] are idempotent: after a call
    that returned, the same call again returns and changes nothing. *)
Theorem add_reference_twice (g g' : BoardGame) (d : dict) :
  (add_expansion g d = (g', ok tt) -> add_expansion g' d = (g', ok tt))
  /\ (add_expanded_game g d = (g', ok tt) ->
      add_expanded_game g' d = (g', ok tt)).
Proof.
  split; intros H.
  - destruct (add_expansion_ok_inv _ _ _ H)
      as (k & Hk & [[_ ->] | (Hm & raw & t & _ & _ & ->)]); [exact H | ].
    apply add_expansion_known with (k := k); [exact Hk | ].
    unfold with_new_expansion. game_simpl. apply set_mem_snoc.
  - destruct (add_expanded_game_ok_inv _ _ _ H)
      as (k & Hk & [[_ ->] | (Hm & raw & t & _ & _ & ->)]); [exact H | ].
    apply add_expanded_game_known with (k := k); [exact Hk | ].
    unfold with_new_expanded_game. game_simpl. apply set_mem_snoc.
Qed.

Lemma add_reference_twice_witness :
  exists g g',
    BoardGame_init identity_url identity_url sample_game = inr g
    /\ add_expansion g (thing_record 3 "c") = (g', ok tt)
    /\ add_expansion g' (thing_record 3 "c") = (g', ok tt).
Proof.
  eexists. eexists. split; [vm_compute; reflexivity | ].
  match goal with
  | |- add_expansion ?g _ = _ /\ _ => pose (g0 := g)
  end.
  split; [vm_compute; reflexivity | ].
  match goal with
  | |- add_expansion ?g' _ = _ =>
      refine (proj1 (add_reference_twice g0 g' (thing_record 3 "c")) _)
  end.
  vm_compute. reflexivity.
Defined.

(** What any call of [add_expansion] leaves alone. *)
Lemma add_expansion_cases (g : BoardGame) (d : dict) :
  fst (add_expansion g d) = g
  \/ exists k raw,
      raw_id d = Some k
      /\ set_mem k (_expansions_set g) = false
      /\ dict_lookup "expansions" (self_data g) = Some (VList raw)
      /\ ((exists e, Thing_init d = inl e
                     /\ add_expansion g d
                        = (with_expansions
                             (_expansions g) (_expansions_set g ++ [k])
                             (with_data
                                (dict_set "expansions"
                                   (VList (raw ++ [VDict d])) (self_data g))
                                g),
                           except_KeyError "invalid expansion data"
                                           (raise e)))
          \/ (exists t, Thing_init d = inr t
                        /\ add_expansion g d
                           = (with_new_expansion raw d k t g, ok tt))).
Proof.
  unfold add_expansion, add_reference.
  destruct (dict_lookup "id" d) as [i | ] eqn:Hi; [ | left; reflexivity].
  destruct (py_hash i) as [e | k] eqn:Hk; [left; reflexivity | ].
  destruct (set_mem k (_expansions_set g)) eqn:Hm; [left; reflexivity | ].
  destruct (dict_lookup "expansions" (self_data g)) as [raw | ];
    [ | left; reflexivity].
  destruct raw as [ | | | | raw | ]; try (left; reflexivity).
  right. exists k, raw.
  split; [apply raw_id_Some; exists i; auto | ].
  split; [exact Hm | ]. split; [reflexivity | ].
  cbn [py_append ok]. game_simpl. rewrite (set_add_new _ _ Hm).
  destruct (Thing_init d) as [e | t].
  - left. exists e. split; reflexivity.
  - right. exists t. split; reflexivity.
Qed.



(** X15: a call of [add_expansion] that raises leaves the game as it was,
    unless the record was refused by the constructor of the thing: then the
    record has already been appended to the raw list of the backing mapping
    and its identifier added to the set, while the list of expansions is
    unchanged. *)
Theorem add_expansion_raises (g g' : BoardGame) (d : dict) (e : exn) :
  add_expansion g d = (g', raise e) ->
  g' = g
  \/ exists k raw e0,
      Thing_init d = inl e0
      /\ raw_id d = Some k
      /\ dict_lookup "expansions" (self_data g) = Some (VList raw)
      /\ expansions g' = expansions g
      /\ _expansions_set g' = _expansions_set g ++ [k]
      /\ dict_lookup "expansions" (self_data g')
         = Some (VList (raw ++ [VDict d])).
Proof.
  intros H.
  destruct (add_expansion_cases g d)
    as [Hg | (k & raw & Hk & _ & Hraw & [(e0 & He & E) | (t & _ & E)])].
  - left. rewrite H in Hg. exact Hg.
  - right. rewrite H in E. injection E as -> _.
    exists k, raw, e0. unfold self_data. game_simpl.
    cbn [game_data set_game_data].
    repeat split; auto. apply dict_lookup_set_same.
  - rewrite H in E. discriminate.
Qed.

Lemma add_expansion_raises_witness :
  exists g g' e,
    BoardGame_init identity_url identity_url sample_game = inr g
    /\ add_expansion g record_with_text_id = (g', raise e)
    /\ expansions g' = expansions g
    /\ _expansions_set g' = _expansions_set g ++ [KStr "abc"].
Proof.
  eexists. eexists. eexists. split; [vm_compute; reflexivity | ].
  match goal with
  | |- add_expansion ?g _ = _ /\ _ => pose (g0 := g)
  end.
  split; [vm_compute; reflexivity | ].
  match goal with
  | |- expansions ?g' = _ /\ _ =>
      destruct (add_expansion_raises g0 g' record_with_text_id
                  (BGGError "id is not an int") eq_refl)
        as [E | (k & raw & e0 & _ & Hk & _ & He & Hs & _)]
  end.
  - discriminate E.
  - injection Hk as <-. split; [exact He | exact Hs].
Defined.

(** X16: a record that the constructor of the thing has refused is accepted
    in silence the next time: the first call of [add_expansion] raises, the
    same call again returns without error and without adding the record. *)
Theorem add_expansion_after_refusal (g : BoardGame) (d : dict) (k : key)
    (raw : list value) (e0 : exn) :
  raw_id d = Some k ->
  set_mem k (_expansions_set g) = false ->
  dict_lookup "expansions" (self_data g) = Some (VList raw) ->
  Thing_init d = inl e0 ->
  exists g' e,
    add_expansion g d = (g', raise e)
    /\ add_expansion g' d = (g', ok tt)
    /\ expansions g' = expansions g.
Proof.
  intros Hk Hm Hraw He.
  destruct (add_expansion_cases g d)
    as [Hg | (k' & raw' & Hk' & _ & _ & [(e & _ & E) | (t & Ht & _)])].
  - exfalso. apply raw_id_Some in Hk. destruct Hk as (i & Hi & Hh).
    unfold add_expansion, add_reference in Hg.
    rewrite Hi, Hh, Hm, Hraw in Hg. cbn [py_append ok] in Hg.
    rewrite He in Hg. cbn [fst] in Hg.
    apply (f_equal _expansions_set) in Hg. revert Hg. game_simpl.
    rewrite (set_add_new _ _ Hm). intros Hg.
    apply (f_equal (@List.length key)) in Hg.
    rewrite length_app in Hg. cbn in Hg. lia.
  - assert (k' = k) by congruence. subst k'.
    eexists.
    exists (match e with
            | KeyError => BGGError "invalid expansion data"
            | _ => e
            end).
    split; [rewrite E; destruct e; reflexivity | ].
    split; [ | reflexivity].
    apply add_expansion_known with (k := k); [exact Hk | ].
    game_simpl. apply set_mem_snoc.
  - congruence.
Qed.

Lemma add_expansion_after_refusal_witness :
  exists g g' e,
    BoardGame_init identity_url identity_url sample_game = inr g
    /\ add_expansion g record_with_text_id = (g', raise e)
    /\ add_expansion g' record_with_text_id = (g', ok tt).
Proof.
  eexists. eexists. eexists. split; [vm_compute; reflexivity | ].
  match goal with
  | |- add_expansion ?g _ = _ /\ _ => pose (g0 := g)
  end.
  destruct (add_expansion_after_refusal g0 record_with_text_id (KStr "abc")
              [VDict (thing_record 1 "a"); VDict (thing_record 2 "b");
               VDict (thing_record 1 "c")]
              (BGGError "id is not an int")
              eq_refl eq_refl eq_refl eq_refl)
    as (g' & e & H1 & H2 & _).
  vm_compute in H1. injection H1 as <- <-.
  split; [vm_compute; reflexivity | exact H2].
Defined.

(** ** More on the statistics *)

Lemma ranks_loop_bgg_rank (rs : list dict) st st' :
  ranks_loop (map VDict rs) st = inr st' ->
  fst st' = fst st
  \/ exists r v,
      In r rs /\ named_boardgame r = true /\ fst st' = Some v
      /\ (v = VNone \/ exists z, v = VInt z).
Proof.
  revert st. induction rs as [ | r rs IH]; intros st; cbn [map ranks_loop].
  - intros H. injection H as <-. left. reflexivity.
  - intros H. bind_inv H.
    apply ranks_step_inv in Ha.
    destruct Ha as (r' & t & E & _ & _ & Hf). injection E as <-.
    destruct (IH _ H) as [E | (r' & v & Hin & Hn & Hv & Hform)].
    + destruct (named_boardgame r) eqn:Hn.
      * destruct Hf as (v & Hv & Hf). right. exists r, v.
        split; [left; reflexivity | ]. split; [exact Hn | ].
        split; [congruence | ].
        apply rank_value_int_cases in Hv.
        destruct (dict_lookup "value" r) as [x | ]; [ | auto].
        destruct (py_int x) as [e | z]; [tauto | eauto].
      * left. congruence.
    + right. exists r', v. split; [right; exact Hin | auto].
Qed.

(** X17: in constructed statistics, when [_bgg_rank] has been assigned, some
    rank of the input has [name] equal to "boardgame", and the value assigned
    is null or an integer. *)
Theorem stats_bgg_rank_only_from_boardgame (d : dict) (s : BoardGameStats)
    (v : value) :
  BoardGameStats_init (VDict d) = inr s ->
  _bgg_rank s = Some v ->
  (exists r, In r (map Thing_data (ranks s)) /\ named_boardgame r = true)
  /\ (v = VNone \/ exists z, v = VInt z).
Proof.
  intros H Hv.
  destruct (BoardGameStats_init_inv _ _ H) as (rs & _ & Hloop & _).
  destruct (ranks_loop_records _ _ _ Hloop) as (rs' & Hrs & Hdata).
  apply map_VDict_inj in Hrs. subst rs'. simpl in Hdata.
  destruct (ranks_loop_bgg_rank _ _ _ Hloop)
    as [E | (r & v' & Hin & Hn & Hv' & Hform)]; simpl in *.
  - congruence.
  - assert (v' = v) by congruence. subst v'. split; [ | exact Hform].
    exists r. unfold ranks. rewrite Hdata. auto.
Qed.

Lemma stats_bgg_rank_only_from_boardgame_witness :
  exists s,
    BoardGameStats_init (VDict stats_boardgame_null) = inr s
    /\ _bgg_rank s = Some VNone
    /\ exists r, In r (map Thing_data (ranks s))
                 /\ named_boardgame r = true.
Proof.
  eexists. split; [vm_compute; reflexivity | ]. split; [reflexivity | ].
  match goal with
  | |- exists r, In r (map Thing_data (ranks ?s)) /\ _ =>
      exact (proj1 (stats_bgg_rank_only_from_boardgame
                      stats_boardgame_null s VNone eq_refl eq_refl))
  end.
Defined.

(** ** More on the videos *)

Lemma dict_set_same (k : string) (v : value) (d : dict) :
  dict_lookup k d = Some v -> dict_set k v d = d.
Proof.
  induction d as [ | [k' v'] r IH]; simpl; [discriminate | ].
  destruct (String.eqb k k') eqn:E.
  - intros H. injection H as ->. reflexivity.
  - intros H. rewrite (IH H). reflexivity.
Qed.

Lemma parse_post_date_kinds (date : value) :
  parse_post_date date = VNone
  \/ exists dt, parse_post_date date = VDatetime dt.
Proof.
  unfold parse_post_date.
  destruct (s <- slice_to_minus_6 date;; strptime s); eauto.
Qed.

(** X18: a constructed video wraps a copy of its mapping in which only
    [post_date] and [uploader_id] can differ.  A [post_date] that is absent
    stays absent, one that is a datetime is kept, a string is parsed or
    becomes null, and any other value becomes null. *)
Theorem video_changes_only_two_keys (data : dict) (v : BoardGameVideo) :
  BoardGameVideo_init data = inr v ->
  (forall k, k <> "post_date" -> k <> "uploader_id" ->
             dict_lookup k (Thing_data v) = dict_lookup k data)
  /\ match dict_lookup "post_date" data with
     | None => dict_lookup "post_date" (Thing_data v) = None
     | Some (VDatetime dt) =>
         dict_lookup "post_date" (Thing_data v) = Some (VDatetime dt)
     | Some (VStr s) =>
         dict_lookup "post_date" (Thing_data v) = Some (parsed_post_date s)
     | Some _ => dict_lookup "post_date" (Thing_data v) = Some VNone
     end.
Proof.
  intros H. destruct (BoardGameVideo_init_inv _ _ H) as (u & z & _ & _ & Hd).
  rewrite Hd. split.
  - intros k Hp Hu. rewrite dict_lookup_set_other by exact Hu.
    apply video_kw_lookup_other, Hp.
  - rewrite dict_lookup_set_other by discriminate. unfold video_kw.
    destruct (dict_lookup "post_date" data) as [[ | | s | | | ] | ] eqn:E;
      try exact E; rewrite dict_lookup_set_same; try reflexivity.
    rewrite parse_post_date_string. reflexivity.
Qed.

Lemma video_changes_only_two_keys_witness :
  exists v,
    BoardGameVideo_init (video_with_date "2021-05-01T10:00:00-07:00") = inr v
    /\ dict_lookup "name" (Thing_data v) = Some (VStr "v")
    /\ dict_lookup "post_date" (Thing_data v)
       = Some (VDatetime (mk_datetime 2021 5 1 10 0 0)).
Proof.
  eexists. split; [vm_compute; reflexivity | ].
  match goal with
  | |- dict_lookup _ (Thing_data ?v) = _ /\ _ =>
      destruct (video_changes_only_two_keys
                  (video_with_date "2021-05-01T10:00:00-07:00") v eq_refl)
        as (Hk & Hp)
  end.
  split; [apply Hk; discriminate | exact Hp].
Defined.

Lemma video_kw_fixpoint (data : dict) :
  video_kw (video_kw data) = video_kw data.
Proof.
  unfold video_kw at 2 3.
  destruct (dict_lookup "post_date" data) as [date | ] eqn:E.
  - assert (Hset : forall x,
               video_kw (dict_set "post_date" (parse_post_date x) data)
               = dict_set "post_date" (parse_post_date x) data).
    { intros x. unfold video_kw. rewrite dict_lookup_set_same.
      destruct (parse_post_date_kinds x) as [-> | (dt & ->)];
        [ | reflexivity].
      apply dict_set_same, dict_lookup_set_same. }
    destruct date; try apply Hset.
    unfold video_kw. rewrite E. reflexivity.
  - unfold video_kw. rewrite E. reflexivity.
Qed.

(** X19: the mapping that a constructed video wraps is a fixed point of the
    constructor: constructing a video from it gives the same video again. *)
Theorem video_of_its_own_data (data : dict) (v : BoardGameVideo) :
  BoardGameVideo_init data = inr v ->
  BoardGameVideo_init (Thing_data v) = inr v.
Proof.
  intros H. pose proof H as H0. rewrite BoardGameVideo_init_eq in H0.
  destruct (BoardGameVideo_init_inv _ _ H) as (u & z & Hu & Hz & Hd).
  rewrite Hu, Hz in H0. cbn [bind] in H0.
  rewrite BoardGameVideo_init_eq, Hd, dict_lookup_set_same.
  cbn [py_int bind ok].
  assert (Hkw : video_kw (dict_set "uploader_id" (VInt z) (video_kw data))
                = dict_set "uploader_id" (VInt z) (video_kw data)).
  { unfold video_kw at 1.
    rewrite dict_lookup_set_other by discriminate.
    pose proof (video_kw_fixpoint data) as Hfix. unfold video_kw at 1 in Hfix.
    destruct (dict_lookup "post_date" (video_kw data)) as [date | ] eqn:E;
      [ | reflexivity].
    destruct date; try reflexivity.
    all: assert (Hp : dict_lookup "post_date"
                        (dict_set "uploader_id" (VInt z) (video_kw data))
                      = Some (parse_post_date
                                ltac:(match type of E with
                                      | _ = Some ?x => exact x
                                      end)));
      [ rewrite dict_lookup_set_other by discriminate;
        rewrite E; f_equal;
        apply (f_equal (dict_lookup "post_date")) in Hfix;
        rewrite dict_lookup_set_same, E in Hfix; congruence
      | apply dict_set_same, Hp ]. }
  rewrite Hkw, (dict_set_same _ _ _ (dict_lookup_set_same _ _ _)).
  exact H0.
Qed.

Lemma video_of_its_own_data_witness :
  exists v,
    BoardGameVideo_init (video_with_date "yesterday") = inr v
    /\ BoardGameVideo_init (Thing_data v) = inr v.
Proof.
  eexists. split; [vm_compute; reflexivity | ].
  match goal with
  | |- BoardGameVideo_init (Thing_data ?v) = _ =>
      exact (video_of_its_own_data (video_with_date "yesterday") v eq_refl)
  end.
Defined.

(** ** Errors of the loops *)

Lemma except_KeyError_never {A} (msg : string) (r : result A) :
  except_KeyError msg r <> inl KeyError.
Proof. destruct r as [[] | ]; simpl; discriminate. Qed.

(** X20: none of the four loops over versions, expansions, expanded games
    and videos lets a KeyError out: whatever the constructor of the elements
    does, an error raised by the loop is not a KeyError. *)
Theorem unique_loop_never_KeyError {W} (ctor : dict -> result W)
    (msg : string) (l : list value) (st : list W * pyset) (e : exn) :
  unique_loop ctor msg l st = inl e -> e <> KeyError.
Proof.
  revert st. induction l as [ | x l IH]; intros st; cbn [unique_loop].
  - discriminate.
  - destruct (unique_step ctor msg st x) as [e' | st1] eqn:E; cbn [bind].
    + intros H. injection H as <-. intros ->.
      unfold unique_step in E. exact (except_KeyError_never _ _ E).
    + apply IH.
Qed.

Lemma unique_loop_never_KeyError_witness :
  unique_loop BoardGameVideo_init "invalid video data"
              [VDict video_without_uploader] ([], [])
  = raise (BGGError "invalid video data")
  /\ BGGError "invalid video data" <> KeyError.
Proof.
  split; [reflexivity | ].
  exact (unique_loop_never_KeyError BoardGameVideo_init "invalid video data"
           [VDict video_without_uploader] ([], []) _ eq_refl).
Defined.

(** X21: an element that is not a mapping, reached by one of the loops, makes
    it raise a TypeError, and so does a record whose [id] is a list or a
    mapping; the validation error is not raised for them. *)
Theorem unique_loop_TypeError {W} (ctor : dict -> result W) (msg : string)
    (pre : list value) (x : value) (post : list value)
    (st st1 : list W * pyset) :
  unique_loop ctor msg pre st = inr st1 ->
  (is_record x = false
   \/ exists d i, x = VDict d /\ dict_lookup "id" d = Some i
                  /\ py_hash i = raise TypeError) ->
  unique_loop ctor msg (pre ++ x :: post) st = raise TypeError.
Proof.
  intros Hpre Hx. rewrite unique_loop_app, Hpre. cbn [bind unique_loop].
  assert (E : unique_step ctor msg st1 x = raise TypeError).
  { unfold unique_step. destruct Hx as [Hx | (d & i & -> & Hi & Hh)].
    - destruct x; try reflexivity. discriminate.
    - simpl. rewrite Hi. cbn [bind ok]. rewrite Hh. reflexivity. }
  rewrite E. reflexivity.
Qed.

Lemma unique_loop_TypeError_witness :
  unique_loop Thing_init "invalid expansion data"
              [VDict (thing_record 1 "a"); VStr "2"] ([], [])
  = raise TypeError
  /\ unique_loop Thing_init "invalid expansion data"
                 [VDict record_with_list_id] ([], [])
     = raise TypeError.
Proof.
  split.
  - apply (unique_loop_TypeError Thing_init "invalid expansion data"
             [VDict (thing_record 1 "a")] (VStr "2") [] ([], [])
             ([mk_Thing 1 (VStr "a") (thing_record 1 "a")], [KInt 1]));
      [reflexivity | left; reflexivity].
  - apply (unique_loop_TypeError Thing_init "invalid expansion data"
             [] (VDict record_with_list_id) [] ([], []) ([], []));
      [reflexivity | right].
    exists record_with_list_id, (VList [VInt 3]). repeat split; reflexivity.
Defined.

(** ** Timestamps that the parser returns *)

Lemma match_classes_inv (cs : list (ascii -> bool)) (s m rest : list ascii) :
  match_classes cs s = Some (m, rest) ->
  Forall2 (fun p c => p c = true) cs m.
Proof.
  revert s m rest. induction cs as [ | p cs IH]; intros s m rest;
    cbn [match_classes].
  - intros H. injection H as <- _. constructor.
  - destruct s as [ | c s]; [discriminate | ].
    destruct (p c) eqn:Hp; [ | discriminate].
    destruct (match_classes cs s) as [[m' rest'] | ] eqn:E; [ | discriminate].
    intros H. injection H as <- _. constructor; [exact Hp | ].
    eapply IH, E.
Qed.

Lemma match_group_inv alts r s l rest :
  match_items (Group alts :: r) s = Some (l, rest) ->
  exists a m caps s',
    In a alts /\ l = m :: caps
    /\ Forall2 (fun p c => p c = true) a m
    /\ match_items r s' = Some (caps, rest).
Proof.
  cbn [match_items]. induction alts as [ | a alts IH]; [discriminate | ].
  destruct (match_classes a s) as [[m s'] | ] eqn:E.
  - destruct (match_items r s') as [[caps rest'] | ] eqn:Er.
    + intros H. injection H as <- <-.
      exists a, m, caps, s'. split; [left; reflexivity | ].
      repeat split; auto. eapply match_classes_inv, E.
    + intros H. destruct (IH H) as (a' & m' & caps & s'' & Hin & Hrest).
      exists a', m', caps, s''. split; [right; exact Hin | exact Hrest].
  - intros H. destruct (IH H) as (a' & m' & caps & s'' & Hin & Hrest).
    exists a', m', caps, s''. split; [right; exact Hin | exact Hrest].
Qed.

Lemma match_lit_inv c r s l rest :
  match_items (Lit c :: r) s = Some (l, rest) ->
  exists s', match_items r s' = Some (l, rest).
Proof.
  cbn [match_items]. destruct s as [ | x s]; [discriminate | ].
  destruct (Ascii.eqb (lower c) (lower x)); [ | discriminate].
  intros H. exists s. exact H.
Qed.

Lemma is_digit_bounds (c : ascii) :
  is_digit c = true -> 0 <= digit_val c <= 9.
Proof.
  unfold is_digit, digit_val. cbv zeta.
  rewrite andb_true_iff, !Nat.leb_le. lia.
Qed.

Lemma char_in_digit (lo hi c : ascii) :
  is_digit lo = true -> is_digit hi = true -> char_in lo hi c = true ->
  is_digit c = true /\ digit_val lo <= digit_val c <= digit_val hi.
Proof.
  unfold is_digit, digit_val, char_in. cbv zeta.
  rewrite !andb_true_iff, !Nat.leb_le. lia.
Qed.

Lemma char_is_eq (a c : ascii) : char_is a c = true -> c = a.
Proof. unfold char_is. intros H. apply Ascii.eqb_eq in H. auto. Qed.

Lemma field_value_1 (c : ascii) :
  is_digit c = true -> field_value [c] = digit_val c.
Proof. intros H. unfold field_value. cbn [fold_left]. rewrite H. lia. Qed.

Lemma field_value_2 (c1 c2 : ascii) :
  is_digit c1 = true -> is_digit c2 = true ->
  field_value [c1; c2] = 10 * digit_val c1 + digit_val c2.
Proof.
  intros H1 H2. unfold field_value. cbn [fold_left]. rewrite H1, H2. lia.
Qed.

Lemma field_value_space (c : ascii) :
  is_digit c = true -> field_value [" "%char; c] = digit_val c.
Proof.
  intros H. unfold field_value. cbn [fold_left]. rewrite H.
  replace (is_digit " ") with false by reflexivity. lia.
Qed.

(** The characters matched by an alternative, with what its classes say. *)
Ltac classes H :=
  repeat match type of H with
         | Forall2 _ (_ :: _) _ =>
             let c := fresh "c" in
             let Hc := fresh "Hc" in
             let H' := fresh "H" in
             inversion H as [ | ? c ? ? Hc H']; subst; clear H; rename H' into H
         | Forall2 _ [] _ => inversion H; subst; clear H
         end.

Ltac digit_facts :=
  repeat match goal with
         | H : char_is _ _ = true |- _ => apply char_is_eq in H; subst
         | H : char_in ?lo ?hi ?c = true |- _ =>
             apply (char_in_digit lo hi c eq_refl eq_refl) in H;
             let Hd := fresh "Hd" in destruct H as [Hd H];
             change (digit_val lo) with (Z.of_nat (nat_of_ascii lo) - 48) in H;
             change (digit_val hi) with (Z.of_nat (nat_of_ascii hi) - 48) in H;
             cbn in H
         | H : is_digit ?c = true |- _ =>
             lazymatch goal with
             | _ : 0 <= digit_val c <= 9 |- _ => fail
             | _ => pose proof (is_digit_bounds c H)
             end
         end.

Ltac field_bound :=
  first [ rewrite field_value_2 by (assumption || reflexivity)
        | rewrite field_value_space by assumption
        | rewrite field_value_1 by assumption ];
  try change (digit_val "0") with 0; try change (digit_val "1") with 1;
  try change (digit_val "2") with 2; try change (digit_val "3") with 3;
  try change (digit_val "6") with 6; lia.

Lemma year_bound a m :
  In a [[is_digit; is_digit; is_digit; is_digit]] ->
  Forall2 (fun p c => p c = true) a m -> 0 <= field_value m <= 9999.
Proof.
  intros [<- | []] H. classes H. digit_facts.
  unfold field_value. cbn [fold_left].
  repeat match goal with
         | Hc : is_digit _ = true |- _ => rewrite Hc; clear Hc
         end.
  lia.
Qed.

Lemma month_bound a m :
  In a [[char_is "1"; char_in "0" "2"]; [char_is "0"; char_in "1" "9"];
        [char_in "1" "9"]]%char ->
  Forall2 (fun p c => p c = true) a m -> 1 <= field_value m <= 12.
Proof.
  intros [<- | [<- | [<- | []]]] H; classes H; digit_facts; field_bound.
Qed.

Lemma day_bound a m :
  In a [[char_is "3"; char_in "0" "1"]; [char_in "1" "2"; is_digit];
        [char_is "0"; char_in "1" "9"]; [char_in "1" "9"];
        [char_is " "; char_in "1" "9"]]%char ->
  Forall2 (fun p c => p c = true) a m -> 1 <= field_value m <= 31.
Proof.
  intros [<- | [<- | [<- | [<- | [<- | []]]]]] H; classes H; digit_facts;
    field_bound.
Qed.

Lemma hour_bound a m :
  In a [[char_is "2"; char_in "0" "3"]; [char_in "0" "1"; is_digit];
        [is_digit]]%char ->
  Forall2 (fun p c => p c = true) a m -> 0 <= field_value m <= 23.
Proof.
  intros [<- | [<- | [<- | []]]] H; classes H; digit_facts; field_bound.
Qed.

Lemma minute_bound a m :
  In a [[char_in "0" "5"; is_digit]; [is_digit]]%char ->
  Forall2 (fun p c => p c = true) a m -> 0 <= field_value m <= 59.
Proof.
  intros [<- | [<- | []]] H; classes H; digit_facts; field_bound.
Qed.

Lemma second_bound a m :
  In a [[char_is "6"; char_in "0" "1"]; [char_in "0" "5"; is_digit];
        [is_digit]]%char ->
  Forall2 (fun p c => p c = true) a m -> 0 <= field_value m <= 61.
Proof.
  intros [<- | [<- | [<- | []]]] H; classes H; digit_facts; field_bound.
Qed.

(** The parser returns valid timestamps only. *)
Lemma strptime_chars_valid (s : list ascii) (dt : datetime) :
  strptime_chars s = Some dt -> valid_datetime dt.
Proof.
  unfold strptime_chars, post_date_format.
  destruct (match_items _ s) as [[l rest] | ] eqn:E; [ | discriminate].
  unfold re_Y, re_m, re_d, re_H, re_M, re_S in E.
  apply match_group_inv in E.
  destruct E as (aY & fY & l1 & s1 & HaY & -> & HY & E).
  apply match_lit_inv in E. destruct E as (s2 & E).
  apply match_group_inv in E.
  destruct E as (am & fm & l2 & s3 & Ham & -> & Hm & E).
  apply match_lit_inv in E. destruct E as (s4 & E).
  apply match_group_inv in E.
  destruct E as (ad & fd & l3 & s5 & Had & -> & Hd & E).
  apply match_lit_inv in E. destruct E as (s6 & E).
  apply match_group_inv in E.
  destruct E as (aH & fH & l4 & s7 & HaH & -> & HH & E).
  apply match_lit_inv in E. destruct E as (s8 & E).
  apply match_group_inv in E.
  destruct E as (aM & fM & l5 & s9 & HaM & -> & HM & E).
  apply match_lit_inv in E. destruct E as (s10 & E).
  apply match_group_inv in E.
  destruct E as (aS & fS & l6 & s11 & HaS & -> & HS & E).
  cbn [match_items] in E. injection E as <- ->.
  destruct rest; [ | discriminate].
  pose proof (year_bound _ _ HaY HY).
  pose proof (month_bound _ _ Ham Hm).
  pose proof (day_bound _ _ Had Hd).
  pose proof (hour_bound _ _ HaH HH).
  pose proof (minute_bound _ _ HaM HM).
  pose proof (second_bound _ _ HaS HS).
  destruct ((1 <=? field_value fY)
            && (field_value fd
                <=? days_in_month (field_value fY) (field_value fm))
            && (field_value fS <=? 59)) eqn:Hc; [ | discriminate].
  rewrite !andb_true_iff, !Z.leb_le in Hc.
  intros Hdt. injection Hdt as <-. unfold valid_datetime. simpl. lia.
Qed.

(** X22: the [post_date] of a constructed video whose input [post_date] is a
    string is null or a valid timestamp: a year from 1 to 9999, a month from
    1 to 12, a day that exists in that month of that year, an hour below 24,
    minutes and seconds below 60. *)
Theorem video_post_date_is_valid (data : dict) (s : string)
    (v : BoardGameVideo) :
  dict_lookup "post_date" data = Some (VStr s) ->
  BoardGameVideo_init data = inr v ->
  post_date v = VNone
  \/ exists dt, post_date v = VDatetime dt /\ valid_datetime dt.
Proof.
  intros Hs Hv.
  destruct (BoardGameVideo_init_inv _ _ Hv) as (u & z & _ & _ & Hd).
  unfold post_date, dict_get. rewrite Hd.
  rewrite dict_lookup_set_other by discriminate.
  unfold video_kw. rewrite Hs, dict_lookup_set_same, parse_post_date_string.
  unfold parsed_post_date.
  destruct (strptime_chars _) as [dt | ] eqn:E; [ | left; reflexivity].
  right. exists dt. split; [reflexivity | ].
  eapply strptime_chars_valid, E.
Qed.

Lemma video_post_date_is_valid_witness :
  exists v,
    BoardGameVideo_init (video_with_date "2021-02-30T10:00:00-07:00") = inr v
    /\ (post_date v = VNone
        \/ exists dt, post_date v = VDatetime dt /\ valid_datetime dt).
Proof.
  eexists. split; [vm_compute; reflexivity | ].
  match goal with
  | |- post_date ?v = _ \/ _ =>
      exact (video_post_date_is_valid
               (video_with_date "2021-02-30T10:00:00-07:00")
               "2021-02-30T10:00:00-07:00" v eq_refl eq_refl)
  end.
Defined.

(** ** Games from a mapping without optional keys *)

(** X23: a mapping with an [id] that converts to an integer, a [stats]
    mapping without [ranks] and none of the optional keys gives a game,
    whatever the two functions of utils.py do: its lists of expansions,
    expanded games, videos, versions, comments and poll results are empty,
    its year, thumbnail and image are null, and no primary rank is set. *)
Theorem game_from_minimal_mapping
    (fix_url fix_unsigned_negative : value -> result value)
    (data stats : dict) (i : value) (z : Z) :
  dict_lookup "id" data = Some i -> py_int i = inr z ->
  dict_lookup "stats" data = Some (VDict stats) ->
  dict_lookup "ranks" stats = None ->
  (forall k, In k optional_keys -> dict_lookup k data = None) ->
  exists g,
    BoardGame_init fix_url fix_unsigned_negative data = inr g
    /\ expansions g = [] /\ expands g = [] /\ videos g = []
    /\ versions (base g) = [] /\ comments g = []
    /\ player_number_votes g = [] /\ player_age_votes g = []
    /\ language_dependence_votes g = []
    /\ BaseGame_year (base g) = VNone
    /\ BaseGame_thumbnail (base g) = VNone
    /\ BaseGame_image (base g) = VNone
    /\ _bgg_rank (_stats (base g)) = None
    /\ BaseGame_ranks (base g) = []
    /\ game_id (base g) = z
    /\ self_data g = data.
Proof.
  intros Hi Hz Hst Hr Hopt.
  assert (Hk : forall k, In k optional_keys -> dict_lookup k data = None)
    by exact Hopt.
  unfold optional_keys in Hk.
  pose proof (Hk "expansions" ltac:(simpl; tauto)) as H1.
  pose proof (Hk "expands" ltac:(simpl; tauto)) as H2.
  pose proof (Hk "videos" ltac:(simpl; tauto)) as H3.
  pose proof (Hk "comments" ltac:(simpl; tauto)) as H4.
  pose proof (Hk "suggested_numplayers" ltac:(simpl; tauto)) as H5.
  pose proof (Hk "suggested_playerage" ltac:(simpl; tauto)) as H6.
  pose proof (Hk "language_dependence" ltac:(simpl; tauto)) as H7.
  pose proof (Hk "versions" ltac:(simpl; tauto)) as H8.
  pose proof (Hk "thumbnail" ltac:(simpl; tauto)) as H9.
  pose proof (Hk "image" ltac:(simpl; tauto)) as H10.
  pose proof (Hk "yearpublished" ltac:(simpl; tauto)) as H11.
  eexists. split.
  - unfold BoardGame_init, BoardGame_fields, load_expansions, load_expands,
      load_videos, poll_results, BaseGame_init, fixed_url_of,
      year_published_of, BoardGameStats_init, dict_get, py_getitem.
    rewrite H1, H2, H3, H4, H5, H6, H7, H8, H9, H10, H11, Hst, Hr.
    cbn [py_iter bind ok unique_loop ranks_loop raise fst snd].
    rewrite (Thing_init_ok _ _ _ Hi Hz). cbn [bind ok]. reflexivity.
  - cbn. repeat split; reflexivity.
Qed.

Lemma game_from_minimal_mapping_witness :
  exists g,
    BoardGame_init identity_url identity_url game_without_lists = inr g
    /\ expansions g = [] /\ comments g = [] /\ game_id (base g) = 13.
Proof.
  destruct (game_from_minimal_mapping identity_url identity_url
              game_without_lists [] (VInt 13) 13
              eq_refl eq_refl eq_refl eq_refl)
    as (g & H & He & _ & _ & _ & Hc & _ & _ & _ & _ & _ & _ & _ & _ & Hid & _).
  - intros k Hk. unfold optional_keys in Hk. simpl in Hk.
    repeat (destruct Hk as [<- | Hk]; [reflexivity | ]). destruct Hk.
  - exists g. auto.
Defined.

(** ** Identifiers as the sets compare them *)

Lemma BoardGameVideo_init_made (d : dict) (v : BoardGameVideo) :
  BoardGameVideo_init d = inr v -> Thing_init (Thing_data v) = inr v.
Proof.
  intros H. pose proof H as H0. rewrite BoardGameVideo_init_eq in H0.
  destruct (BoardGameVideo_init_inv _ _ H) as (u & z & Hu & Hz & Hd).
  rewrite Hu, Hz in H0. cbn [bind] in H0. rewrite Hd. exact H0.
Qed.

Lemma BoardGameVersion_init_made (fix_url : value -> result value)
    (d : dict) (v : BoardGameVersion) :
  BoardGameVersion_init fix_url d = inr v ->
  Thing_init (Thing_data v) = inr v.
Proof.
  unfold BoardGameVersion_init. intros H. bind_inv H. bind_inv H.
  rewrite (Thing_init_data _ _ H). exact H.
Qed.

Lemma Thing_init_made (d : dict) (t : Thing) :
  Thing_init d = inr t -> Thing_init (Thing_data t) = inr t.
Proof. intros H. rewrite (Thing_init_data _ _ H). exact H. Qed.

(** A thing whose raw [id] is an integer has that integer as its [id]. *)
Lemma integer_raw_id (t : Thing) (z : Z) :
  Thing_init (Thing_data t) = inr t ->
  dict_lookup "id" (Thing_data t) = Some (VInt z) ->
  raw_id (Thing_data t) = Some (KInt (Thing_id t)).
Proof.
  intros Ht Hz. destruct (Thing_init_id _ _ Ht) as (i & Hi & Hzi).
  rewrite Hz in Hi. injection Hi as <-. simpl in Hzi. injection Hzi as <-.
  unfold raw_id. rewrite Hz. reflexivity.
Qed.

Lemma load_integer_ids_distinct (ctor : dict -> result Thing) (msg : string)
    (input : value) (ws : list Thing) (seen : pyset) :
  (forall d w, ctor d = inr w ->
               raw_id (Thing_data w) = raw_id d
               /\ Thing_init (Thing_data w) = inr w) ->
  (l <- py_iter input;; unique_loop ctor msg l ([], [])) = inr (ws, seen) ->
  (forall t, In t ws ->
             exists z, dict_lookup "id" (Thing_data t) = Some (VInt z)) ->
  NoDup (map Thing_id ws).
Proof.
  intros Hctor H Hint.
  destruct (load_distinct_ids ctor msg input ws seen
              (fun d w Hw => proj1 (Hctor d w Hw)) H) as (Hs & Hnd).
  assert (Hmade : Forall (fun w => Thing_init (Thing_data w) = inr w) ws).
  { apply load_deduplicated in H. destruct H as (ds & _ & Hall).
    clear - Hall Hctor. induction Hall as [ | d w ds' ws' Hw _ IH];
      constructor; auto. apply (Hctor d w Hw). }
  assert (E : map Some seen = map (fun z => Some (KInt z)) (map Thing_id ws)).
  { rewrite Hs. unfold raw_ids. rewrite map_map. apply map_ext_in.
    intros t Ht. destruct (Hint t Ht) as (z & Hz).
    rewrite Forall_forall in Hmade.
    apply (integer_raw_id t z (Hmade t Ht) Hz). }
  assert (Hnd' : NoDup (map Some seen)).
  { clear - Hnd. induction Hnd as [ | x l Hx _ IH]; simpl; constructor; auto.
    intros Hin. apply in_map_iff in Hin. destruct Hin as (y & Ey & Hy).
    injection Ey as ->. exact (Hx Hy). }
  rewrite E in Hnd'. apply NoDup_map_inv in Hnd'. exact Hnd'.
Qed.

(** C4, as amended: the identifiers are deduplicated as the raw values of
    [id], compared as the members of a set are, before they are converted to
    integers.  In every constructed game each of the lists of expansions,
    expanded games, videos and versions holds one object per distinct raw
    identifier of the input list, made from the first record with that
    identifier, in the order of first occurrence, and later records with a
    raw identifier already seen are dropped; when the raw identifiers of the
    objects of a list are integers, no two objects of that list have the same
    [id].  For the expansions [{id:1, name:"a"}, {id:2, name:"b"},
    {id:1, name:"c"}] the list has two entries, with the identifiers 1 and 2
    and the names of the first records. *)
Theorem game_lists_keep_first_by_raw_id :
  (forall (fix_url fix_unsigned_negative : value -> result value)
          (data : dict) (g : BoardGame),
      BoardGame_init fix_url fix_unsigned_negative data = inr g ->
      (deduplicated Thing_init (dict_get "expansions" (VList []) data)
                    (expansions g)
       /\ deduplicated Thing_init (dict_get "expands" (VList []) data)
                       (expands g)
       /\ deduplicated BoardGameVideo_init
                       (dict_get "videos" (VList []) data) (videos g)
       /\ deduplicated (BoardGameVersion_init fix_url)
                       (dict_get "versions" (VList []) data)
                       (versions (base g)))
      /\ (NoDup (raw_ids (expansions g)) /\ NoDup (raw_ids (expands g))
          /\ NoDup (raw_ids (videos g))
          /\ NoDup (raw_ids (versions (base g))))
      /\ forall things,
          In things [expansions g; expands g; videos g; versions (base g)] ->
          (forall t, In t things ->
                     exists z,
                       dict_lookup "id" (Thing_data t) = Some (VInt z)) ->
          NoDup (map Thing_id things))
  /\ (forall fix_url fix_unsigned_negative,
         exists g,
           BoardGame_init fix_url fix_unsigned_negative sample_game = inr g
           /\ map Thing_id (expansions g) = [1; 2]
           /\ map Thing_name (expansions g) = [VStr "a"; VStr "b"]).
Proof.
  split; [ | exact (proj2 game_lists_deduplicated)].
  intros fu fn data g H.
  split; [exact (proj1 game_lists_deduplicated fu fn data g H) | ].
  destruct (reachable_distinct_ids fu fn g (reach_init fu fn data g H))
    as ((E1 & N1) & (E2 & N2) & (E3 & N3) & (E4 & N4)).
  assert (Hinj : forall l : pyset, NoDup l -> NoDup (map Some l)).
  { intros l Hl. induction Hl as [ | x l Hx _ IH]; simpl; constructor; auto.
    intros Hin. apply in_map_iff in Hin. destruct Hin as (y & E & Hy).
    injection E as ->. exact (Hx Hy). }
  split; [rewrite <- E1, <- E2, <- E3, <- E4; auto | ].
  destruct (BoardGame_init_inv _ _ _ _ H) as (He & Hx & Hv & Hb).
  destruct (BaseGame_init_inv _ _ _ _ Hb) as (st & _ & _ & Hvs & _).
  unfold expansions, expands, videos, versions.
  intros things [<- | [<- | [<- | [<- | []]]]].
  - eapply load_integer_ids_distinct; [ | exact He].
    intros d w Hw. split; [ | exact (Thing_init_made _ _ Hw)].
    rewrite (Thing_init_data _ _ Hw). reflexivity.
  - eapply load_integer_ids_distinct; [ | exact Hx].
    intros d w Hw. split; [ | exact (Thing_init_made _ _ Hw)].
    rewrite (Thing_init_data _ _ Hw). reflexivity.
  - eapply load_integer_ids_distinct; [ | exact Hv].
    intros d w Hw. split; [exact (BoardGameVideo_init_raw_id _ _ Hw) | ].
    exact (BoardGameVideo_init_made _ _ Hw).
  - eapply load_integer_ids_distinct; [ | exact Hvs].
    intros d w Hw. split; [exact (BoardGameVersion_init_raw_id _ _ _ Hw) | ].
    exact (BoardGameVersion_init_made _ _ _ Hw).
Qed.

Lemma game_lists_keep_first_by_raw_id_witness :
  exists g,
    BoardGame_init identity_url identity_url sample_game = inr g
    /\ deduplicated Thing_init (dict_get "expansions" (VList []) sample_game)
                    (expansions g)
    /\ deduplicated BoardGameVideo_init
                    (dict_get "videos" (VList []) sample_game) (videos g)
    /\ NoDup (raw_ids (expansions g))
    /\ NoDup (map Thing_id (expansions g)).
Proof.
  eexists. split; [vm_compute; reflexivity | ].
  match goal with
  | |- deduplicated _ _ (expansions ?g) /\ _ =>
      destruct (proj1 game_lists_keep_first_by_raw_id
                      identity_url identity_url sample_game g eq_refl)
        as ((He & _ & Hv & _) & (Hn & _) & Hint)
  end.
  split; [exact He | ]. split; [exact Hv | ]. split; [exact Hn | ].
  apply Hint; [left; reflexivity | ].
  intros t [<- | [<- | []]]; eexists; reflexivity.
Defined.

(** C4 as stated fails when identifiers are compared as integers: the
    records with the identifiers 1, "1" and "01" have three different raw
    identifiers and are all kept, as three expansions with the [id] 1; the
    later two are neither dropped nor merged with the first. *)
Lemma texts_and_integer_of_one_id_are_all_kept :
  exists g,
    BoardGame_init identity_url identity_url
      (game_with "expansions"
         [VDict [("id", VInt 1); ("name", VStr "a")];
          VDict [("id", VStr "1"); ("name", VStr "b")];
          VDict [("id", VStr "01"); ("name", VStr "c")]])
    = inr g
    /\ map Thing_id (expansions g) = [1; 1; 1]
    /\ map Thing_name (expansions g) = [VStr "a"; VStr "b"; VStr "c"].
Proof. eexists. split; [reflexivity | ]. split; reflexivity. Qed.
